(** * ModernBlog: comment thread and moderation front end

    A shallow embedding of the comment code of the ModernBlog front end:
    the [Comment] type of [types.ts], the comment requests of
    [api/client.ts], the comments component ([Comments], [CommentForm],
    [CommentThread], [countAllComments]; in the sources it follows the post
    editor in [components/PostEditor.tsx]) and the comments tab of the admin
    page ([AdminPage], which follows the edit route in
    [routes/admin/edit.$slug.tsx]).  The server is not part of these sources;
    what the properties need of it is modelled from the specification and
    marked so. *)

From Stdlib Require Import ZArith NArith List String Ascii Bool Lia.
From Stdlib Require Import DecimalString.
From Stdlib Require DecimalPos DecimalZ.
From stdpp Require Import base option list strings gmap.

Local Open Scope Z_scope.
Local Open Scope list_scope.

(** ** JavaScript strings

    User input is a sequence of UTF-16 code units, which is what
    [String.prototype.trim] works on.  Fixed texts of the program (storage
    keys, translation keys, query parameters) are ordinary strings. *)

Module Js.

Definition jsstring := list N.

(** ECMAScript [WhiteSpace] and [LineTerminator] code points; all of them
    are in the basic plane, so one code unit each. *)
Definition isWhiteSpace (c : N) : bool :=
  ((c =? 0x0009) || (c =? 0x000B) || (c =? 0x000C) || (c =? 0xFEFF)
   || (c =? 0x0020) || (c =? 0x00A0) || (c =? 0x1680)
   || ((0x2000 <=? c) && (c <=? 0x200A))
   || (c =? 0x202F) || (c =? 0x205F) || (c =? 0x3000)
   || (c =? 0x000A) || (c =? 0x000D) || (c =? 0x2028) || (c =? 0x2029))%N.

Fixpoint trimStart (s : jsstring) : jsstring :=
  match s with
  | c :: s' => if isWhiteSpace c then trimStart s' else s
  | [] => []
  end.

Definition trimEnd (s : jsstring) : jsstring := rev (trimStart (rev s)).

(** [s.trim()] *)
Definition trim (s : jsstring) : jsstring := trimEnd (trimStart s).

(** Truthiness of a string: the empty string is the only falsy one. *)
Definition truthy (s : jsstring) : bool :=
  match s with [] => false | _ :: _ => true end.

(** [s || undefined] *)
Definition orUndefined (s : jsstring) : option jsstring :=
  if truthy s then Some s else None.

(** Code units of an ASCII text. *)
Definition ofString (s : string) : jsstring :=
  map (fun a => N_of_ascii a) (list_ascii_of_string s).

End Js.

(** ** The comment data model ([types.ts]) *)

Unset Elimination Schemes.
Inductive Comment : Type := mkComment {
  id : Z;
  post_id : Z;
  parent_id : option Z;
  author_name : Js.jsstring;
  author_email : option Js.jsstring;
  content : Js.jsstring;
  is_approved : bool;
  ip_address : option string;
  created_at : string;
  replies : list Comment
}.
Set Elimination Schemes.

(** [countAllComments]: a [reduce] from [0] whose step adds one for the
    comment and the count of its replies.  The recursive call is on
    [comment.replies || []]; [replies] is an array in [types.ts], so the
    fallback never applies.  Rocq wants the recursion on a [Comment], so
    [countReplies comment] stands for [countAllComments(comment.replies)];
    [countAllComments_eq] below gives the source's equation back. *)
Fixpoint countReplies (comment : Comment) : nat :=
  fold_left (fun count reply => (count + 1 + countReplies reply)%nat)
            (replies comment) 0%nat.

Definition countAllComments (comments : list Comment) : nat :=
  fold_left (fun count comment => (count + 1 + countReplies comment)%nat)
            comments 0%nat.

(** The nodes of a forest, listed parent first, and the same list with the
    nesting depth of every node: what "the number of nodes" and "a comment at
    depth d" mean below. *)
Fixpoint nodesOf (comment : Comment) : list Comment :=
  comment :: flat_map nodesOf (replies comment).

Definition allNodes (comments : list Comment) : list Comment :=
  flat_map nodesOf comments.

Fixpoint depthsFrom (depth : nat) (comment : Comment) : list (Comment * nat) :=
  (comment, depth) :: flat_map (depthsFrom (S depth)) (replies comment).

Definition treeDepths (comments : list Comment) : list (Comment * nat) :=
  flat_map (depthsFrom 0) comments.

(** ** The API client ([api/client.ts])

    A request is kept as method, path and query parameters.  Numbers are
    printed in decimal, as [toString] and template literals do for the
    integers used as identifiers and page numbers. *)

Module Api.

Inductive Method := GET | POST | PUT | DELETE.

Record Request := mkRequest {
  method : Method;
  path : string;
  query : list (string * string)
}.

Definition numberToString (n : Z) : string :=
  NilZero.string_of_int (Z.to_int n).

Definition deleteComment (commentId : Z) : Request :=
  mkRequest DELETE ("/api/comments/" ++ numberToString commentId) [].

Definition approveComment (commentId : Z) : Request :=
  mkRequest PUT ("/api/comments/" ++ numberToString commentId ++ "/approve") [].

Definition rejectComment (commentId : Z) : Request :=
  mkRequest PUT ("/api/comments/" ++ numberToString commentId ++ "/reject") [].

(** [if (status) params.append('status', status)]: an absent or empty
    status adds no parameter. *)
Definition getAllComments (page perPage : Z) (status : option string) : Request :=
  let params := [("page", numberToString page);
                 ("per_page", numberToString perPage)] in
  let params :=
    match status with
    | Some st => if String.eqb st "" then params else params ++ [("status", st)]
    | None => params
    end in
  mkRequest GET "/api/comments" params.

(** Defaults of [getAllComments]: [page = 1], [perPage = 50]. *)
Definition getAllComments_default : Request := getAllComments 1 50 None.

End Api.

(** The body of a comment submission ([CommentCreate] in [types.ts]). *)
(** ** [localStorage]

    [getItem] and [removeItem] always return.  [setItem] either stores the
    value or throws (a [QuotaExceededError], when the storage is full or
    switched off) and then leaves the storage as it was.  Which of the two
    happens is the browser's decision: a [Quota] says, for a key, a value and
    the storage as it is, whether the write goes through. *)

Module Storage.

Definition Quota : Type := string -> Js.jsstring -> gmap string Js.jsstring -> bool.

Definition setItem (accepts : Quota) (key : string) (value : Js.jsstring)
    (storage : gmap string Js.jsstring) : option (gmap string Js.jsstring) :=
  if accepts key value storage then Some (<[key := value]> storage) else None.

(** A browser with room for everything, and one with room for nothing. *)
Definition unlimited : Quota := fun _ _ _ => true.
Definition full : Quota := fun _ _ _ => false.

End Storage.

Module CommentCreate.
Record t := mk {
  author_name : Js.jsstring;
  author_email : option Js.jsstring;
  content : Js.jsstring;
  parent_id : option Z;
  honeypot : option Js.jsstring;
  form_timestamp : option Z
}.
End CommentCreate.

(** ** The comment form ([CommentForm])

    [t] of i18next is kept symbolic: a message is its translation key (the
    locale tables are not part of these sources). *)

Module Form.

Definition STORAGE_KEY_NAME : string := "comment_author_name".
Definition STORAGE_KEY_EMAIL : string := "comment_author_email".

Definition t (key : string) : string := key.

(** [CommentFormProps]; [onCommentAdded] is always there, [onCancel] is
    optional. *)
Record Props := mkProps {
  postSlug : string;
  parentId : option Z;
  hasOnCancel : bool;
  isReply : bool
}.

(** The [useState] cells of the form. *)
Record State := mkState {
  name : Js.jsstring;
  email : Js.jsstring;
  content : Js.jsstring;
  honeypot : Js.jsstring;
  isSubmitting : bool;
  error : option string
}.

Definition initialState : State := mkState [] [] [] [] false None.

Inductive ToastKind := info | success | error_kind.

(** What a submission does to the outside, in order. *)
Inductive Effect :=
| PreventDefault
| CreateComment (slug : string) (data : CommentCreate.t)
| ShowToast (message : string) (kind : ToastKind)
| OnCommentAdded
| OnCancel.

(** The failure of a request as the caller sees it: the rejected promise
    of axios, with whatever status and detail the server chose. *)
Record ApiError := mkApiError {
  status : option Z;
  detail : option string
}.

Inductive Response :=
| Resolved (comment : Comment)
| Failed (e : ApiError).

Definition Server := string -> CommentCreate.t -> Response.

Record World := mkWorld {
  form : State;
  localStorage : gmap string Js.jsstring;
  effects : list Effect;
  storageAccepts : Storage.Quota
}.

(** What a handler can catch: the rejected request, or the exception of
    [localStorage.setItem]. *)
Inductive Exception :=
| RequestFailed (e : ApiError)
| QuotaExceededError.

(** Computations of the handler: they change the world and either return
    or throw. *)
Inductive Outcome (A : Type) :=
| Returned (a : A)
| Thrown (e : Exception).
Arguments Returned {A} a.
Arguments Thrown {A} e.

Definition M (A : Type) : Type := World -> Outcome A * World.

#[export] Instance M_ret : MRet M := fun A a w => (Returned a, w).
#[export] Instance M_bind : MBind M := fun A B f m w =>
  match m w with
  | (Returned a, w') => f a w'
  | (Thrown e, w') => (Thrown e, w')
  end.

(** [try { body } catch { handler } finally { final }] for a handler and a
    final block that do not throw. *)
Definition tryCatchFinally (body handler final : M unit) : M unit := fun w =>
  match body w with
  | (Returned _, w') => final w'
  | (Thrown _, w') =>
      match handler w' with
      | (r, w'') => match final w'' with (_, w3) => (r, w3) end
      end
  end.

Definition modifyForm (f : State -> State) : M unit := fun w =>
  (Returned (), mkWorld (f (form w)) (localStorage w) (effects w) (storageAccepts w)).

Definition setContent (v : Js.jsstring) : M unit :=
  modifyForm (fun s => mkState (name s) (email s) v (honeypot s) (isSubmitting s) (error s)).
Definition setIsSubmitting (v : bool) : M unit :=
  modifyForm (fun s => mkState (name s) (email s) (content s) (honeypot s) v (error s)).
Definition setError (v : option string) : M unit :=
  modifyForm (fun s => mkState (name s) (email s) (content s) (honeypot s) (isSubmitting s) v).

Definition emit (e : Effect) : M unit := fun w =>
  (Returned (), mkWorld (form w) (localStorage w) (effects w ++ [e]) (storageAccepts w)).

(** [localStorage.setItem(key, value)]: the value is stored, or the call
    throws and nothing is stored. *)
Definition localStorage_setItem (key : string) (value : Js.jsstring) : M unit := fun w =>
  match Storage.setItem (storageAccepts w) key value (localStorage w) with
  | Some storage' =>
      (Returned (), mkWorld (form w) storage' (effects w) (storageAccepts w))
  | None => (Thrown QuotaExceededError, w)
  end.

(** [await createComment(postSlug, data)]: the request goes out, then the
    promise resolves or rejects. *)
Definition createComment (server : Server) (slug : string) (data : CommentCreate.t)
  : M Comment := fun w =>
  let w' := mkWorld (form w) (localStorage w) (effects w ++ [CreateComment slug data])
                    (storageAccepts w) in
  match server slug data with
  | Resolved c => (Returned c, w')
  | Failed e => (Thrown (RequestFailed e), w')
  end.

Definition when (b : bool) (m : M unit) : M unit :=
  if b then m else mret ().

(** [handleSubmit].  The closure reads [name], [email], [content] and
    [honeypot] of the render it was created in ([s]); the setters write to
    the world.  [formTimestamp] is what the [useRef] holds: the second the
    form was first rendered.  The request and both writes to the local
    storage are inside the [try]: whichever of them throws, the [catch]
    block runs and what follows in the [try] does not. *)
Definition handleSubmit (server : Server) (props : Props) (formTimestamp : Z)
    (s : State) : M unit :=
  emit PreventDefault ;;
  if negb (Js.truthy (Js.trim (name s))) || negb (Js.truthy (Js.trim (content s)))
  then setError (Some (t "comments.validationError"))
  else
    setIsSubmitting true ;;
    setError None ;;
    tryCatchFinally
      (newComment ← createComment server (postSlug props)
         (CommentCreate.mk (Js.trim (name s))
                           (Js.orUndefined (Js.trim (email s)))
                           (Js.trim (content s))
                           (parentId props)
                           (Some (honeypot s))
                           (Some formTimestamp)) ;
       localStorage_setItem STORAGE_KEY_NAME (Js.trim (name s)) ;;
       when (Js.truthy (Js.trim (email s)))
            (localStorage_setItem STORAGE_KEY_EMAIL (Js.trim (email s))) ;;
       setContent [] ;;
       (if negb (is_approved newComment)
        then emit (ShowToast (t "comments.awaitingApproval") info)
        else emit (ShowToast (t "comments.commentAdded") success) ;;
             emit OnCommentAdded) ;;
       when (hasOnCancel props) (emit OnCancel))
      (setError (Some (t "comments.error")))
      (setIsSubmitting false).

(** The world a submission leaves behind. *)
Definition submit (server : Server) (props : Props) (formTimestamp : Z)
    (w : World) : World :=
  snd (handleSubmit server props formTimestamp (form w) w).

(** The effects a submission added. *)
Definition newEffects (before after : World) : list Effect :=
  drop (length (effects before)) (effects after).

Definition isCreateComment (e : Effect) : bool :=
  match e with CreateComment _ _ => true | _ => false end.

Definition isToast (e : Effect) : bool :=
  match e with ShowToast _ _ => true | _ => false end.

End Form.

(** ** The comment thread ([Comments] and [CommentThread])

    A rendered thread is kept as the tree of what is on the page.  A
    component instance is identified by the keys on the way to it (the
    comment ids, which are the React keys); its [showReplyForm] cell is on
    when that path is in the set [opened]. *)

Module Thread.

Definition maxDepth : nat := 4.

Record Actions := mkActions {
  replyButtonLabel : string;
  deleteButton : bool
}.

Unset Elimination Schemes.
Inductive View : Type := mkView {
  key : list Z;
  comment : Comment;
  depth : nat;
  className : string;
  actions : option Actions;
  replyForm : option Form.Props;
  replyViews : list View
}.
Set Elimination Schemes.

Section Render.
(** [isAdmin()], the open reply forms, and the props handed down
    unchanged. *)
Variable admin : bool.
Variable opened : gset (list Z).
Variable postSlug : string.

(** [CommentThread]; [parent] is the key path of the enclosing instance.
    The block of replies is rendered when there are replies, one thread per
    reply at [depth + 1]; an empty list of views stands for no block. *)
Fixpoint CommentThread (parent : list Z) (depth : nat) (comment : Comment) : View :=
  let key := parent ++ [id comment] in
  let showReplyForm := bool_decide (key ∈ opened) in
  mkView key comment depth
    (if (0 <? depth)%nat then "comment comment-reply" else "comment ")
    (if (depth <? maxDepth)%nat
     then Some (mkActions
                  (if showReplyForm then Form.t "comments.cancel"
                   else Form.t "comments.reply")
                  admin)
     else None)
    (if showReplyForm
     then Some (Form.mkProps postSlug (Some (id comment)) true true)
     else None)
    (map (CommentThread key (depth + 1)) (replies comment)).

(** [Comments]: the title with the total, the root form, and one thread
    per root comment at the default depth [0]. *)
Record CommentsView := mkCommentsView {
  titleCount : nat;
  rootForm : Form.Props;
  emptyMessage : bool;
  threads : list View
}.

Definition Comments (comments : list Comment) : CommentsView :=
  mkCommentsView
    (countAllComments comments)
    (Form.mkProps postSlug None false false)
    (length comments =? 0)%nat
    (map (CommentThread [] 0) comments).
End Render.

(** Every thread instance on the page, parents first. *)
Fixpoint instancesOf (v : View) : list View :=
  v :: flat_map instancesOf (replyViews v).

Definition instances (vs : list View) : list View := flat_map instancesOf vs.

(** Where a comment ends up on the page: the nesting level of its
    instance in the rendered tree, counted from the top. *)
Fixpoint placedFrom (level : nat) (v : View) : list (Comment * nat) :=
  (comment v, level) :: flat_map (placedFrom (S level)) (replyViews v).

Definition placed (vs : list View) : list (Comment * nat) :=
  flat_map (placedFrom 0) vs.

(** *** The page as a state machine

    The comments come from the server, the open reply forms are React
    state, the admin token sits in local storage.  [sent] collects the
    requests of the thread's own handler, the deletions; a reply form sends
    its request itself (see [Form]). *)
Record Page := mkPage {
  comments : list Comment;
  opened : gset (list Z);
  admin : bool;
  sent : list Api.Request
}.

Definition render (postSlug : string) (p : Page) : CommentsView :=
  Comments (admin p) (opened p) postSlug (comments p).

Definition find (postSlug : string) (p : Page) (k : list Z) : option View :=
  List.find (fun v => bool_decide (key v = k))
            (instances (threads (render postSlug p))).

(** What can happen on the page.  A click names the instance whose button
    is pressed; it is possible only when that button is on the page.
    [ClickDelete] is the click the admin confirmed in the dialog; [CloseForm]
    is [onCancel], called by the cancel button of a reply form and after a
    successful submission; [Refetch] is the reload [onCommentAdded] asks for,
    which unmounts the instances that are gone. *)
Inductive Event :=
| ClickReply (k : list Z)
| CloseForm (k : list Z)
| ClickDelete (k : list Z)
| Refetch (comments' : list Comment)
| SetAdmin (b : bool).

Definition toggle (k : list Z) (s : gset (list Z)) : gset (list Z) :=
  if bool_decide (k ∈ s) then s ∖ {[k]} else s ∪ {[k]}.

Definition step (postSlug : string) (p : Page) (e : Event) : option Page :=
  match e with
  | ClickReply k =>
      v ← find postSlug p k ;
      _ ← actions v ;
      Some (mkPage (comments p) (toggle k (opened p)) (admin p) (sent p))
  | CloseForm k =>
      v ← find postSlug p k ;
      _ ← replyForm v ;
      Some (mkPage (comments p) (opened p ∖ {[k]}) (admin p) (sent p))
  | ClickDelete k =>
      v ← find postSlug p k ;
      a ← actions v ;
      if deleteButton a
      then Some (mkPage (comments p) (opened p) (admin p)
                        (sent p ++ [Api.deleteComment (id (comment v))]))
      else None
  | Refetch comments' =>
      let p' := mkPage comments' (opened p) (admin p) (sent p) in
      let mounted := map key (instances (threads (render postSlug p'))) in
      Some (mkPage comments'
                   (filter (fun k => k ∈ mounted) (opened p))
                   (admin p) (sent p))
  | SetAdmin b => Some (mkPage (comments p) (opened p) b (sent p))
  end.

Definition initial (comments : list Comment) (admin : bool) : Page :=
  mkPage comments ∅ admin [].

Fixpoint run (postSlug : string) (p : Page) (es : list Event) : option Page :=
  match es with
  | [] => Some p
  | e :: es' => p' ← step postSlug p e ; run postSlug p' es'
  end.

End Thread.

(** ** The moderation table of the admin page ([AdminPage]) *)

Module Admin.

(** The [<option>] values of the status filter, in page order. *)
Definition statusOptions : list string := ["all"; "pending"; "approved"].

Definition commentsPerPage : Z := 10.

(** The [useState] cells the comments tab uses. *)
Record State := mkState {
  commentsPage : Z;
  commentStatus : string;
  sent : list Api.Request
}.

Definition initialState : State := mkState 1 "all" [].

(** The query of the comments tab: [getAllComments(commentsPage,
    commentsPerPage, commentStatus)]. *)
Definition listingRequest (s : State) : Api.Request :=
  Api.getAllComments (commentsPage s) commentsPerPage (Some (commentStatus s)).

(** The status cell of a row: badge class and label. *)
Definition statusBadge (c : Comment) : string * string :=
  (if is_approved c then "status-badge published" else "status-badge draft",
   if is_approved c then Form.t "admin.comments.approved"
   else Form.t "admin.comments.pending").

Inductive RowAction := Approve | Reject | Delete.

#[export] Instance RowAction_eq_dec : EqDecision RowAction.
Proof. solve_decision. Defined.

(** The buttons of a row, left to right. *)
Definition rowActions (c : Comment) : list RowAction :=
  (if negb (is_approved c) then [Approve] else [])
  ++ (if is_approved c then [Reject] else [])
  ++ [Delete].

(** What pressing a button sends ([handleApproveComment] and the like;
    delete asks for confirmation first). *)
Definition actionRequest (a : RowAction) (c : Comment) : Api.Request :=
  match a with
  | Approve => Api.approveComment (id c)
  | Reject => Api.rejectComment (id c)
  | Delete => Api.deleteComment (id c)
  end.

(** "Lets assume there's a next page if full page is returned." *)
Definition commentsTotalPages (rows : list Comment) (s : State) : Z :=
  if Z.of_nat (length rows) =? commentsPerPage
  then commentsPage s + 1
  else commentsPage s.

(** What the moderator can do, given the rows the server returned. *)
Inductive Event :=
| SelectStatus (value : string)
| PreviousPage
| NextPage
| Press (a : RowAction) (row : nat).

(** A [select] hands back the value of one of its options; a row button
    can be pressed only if the row has it.  The page buttons are there when
    there is more than one page, each disabled at its end; they follow
    [Math.max(1, p - 1)] and [Math.min(commentsTotalPages, p + 1)]. *)
Definition step (rows : list Comment) (s : State) (e : Event) : option State :=
  match e with
  | SelectStatus value =>
      if bool_decide (value ∈ statusOptions)
      then Some (mkState (commentsPage s) value (sent s))
      else None
  | PreviousPage =>
      if (1 <? commentsTotalPages rows s) && negb (commentsPage s =? 1)
      then Some (mkState (Z.max 1 (commentsPage s - 1)) (commentStatus s) (sent s))
      else None
  | NextPage =>
      if (1 <? commentsTotalPages rows s)
         && negb (commentsPage s =? commentsTotalPages rows s)
      then Some (mkState (Z.min (commentsTotalPages rows s) (commentsPage s + 1))
                         (commentStatus s) (sent s))
      else None
  | Press a row =>
      c ← rows !! row ;
      if bool_decide (a ∈ rowActions c)
      then Some (mkState (commentsPage s) (commentStatus s)
                         (sent s ++ [actionRequest a c]))
      else None
  end.

(** A session on the comments tab: every event comes with the rows the table
    shows when it happens. *)
Fixpoint run (s : State) (es : list (list Comment * Event)) : option State :=
match es with
| [] => Some s
| (rows, e) :: es' => s' ← step rows s e ; run s' es'
end.

End Admin.

(** ** Moderation states *)

Module Moderation.

(** Modelled from the spec: the three moderation states of the moderation
    state machine.  The server code that keeps the state is not part of the
    front end sources. *)
Inductive Status := Pending | Approved | Rejected.

#[export] Instance Status_eq_dec : EqDecision Status.
Proof. solve_decision. Defined.

(** Modelled from the spec: what the server puts into [is_approved], the
    one moderation field of [Comment], for a comment in a given state; only
    an approved comment is approved. *)
Definition flag (s : Status) : bool :=
  match s with
  | Approved => true
  | Pending | Rejected => false
  end.

(** A comment as the front end receives it when it is in state [s]. *)
Definition inState (s : Status) (c : Comment) : Prop := is_approved c = flag s.

End Moderation.

(** ** The rate limiter *)

Module RateLimiter.

(** Modelled from the spec: the sliding-window rate limiter of the server,
    which is not part of the front end sources.  Per key an ordered list of
    event times; a call drops the times older than [now - window], allows
    the event when fewer than [limit] remain and then appends [now].  The
    whole call is one atomic step. *)
Definition prune (window now : Z) (times : list Z) : list Z :=
  filter (fun t => now - window <= t) times.

Definition tryConsume (key : string) (limit : nat) (window now : Z)
    (store : gmap string (list Z)) : bool * gmap string (list Z) :=
  let times := prune window now (default [] (store !! key)) in
  if (length times <? limit)%nat
  then (true, <[key := times ++ [now]]> store)
  else (false, <[key := times]> store).

(** Modelled from the spec: the sweep that evicts the keys whose list is
    empty after pruning. *)
Definition sweep (window now : Z) (store : gmap string (list Z))
    : gmap string (list Z) :=
  filter (fun kv => kv.2 ≠ []) (prune window now <$> store).

(** Calls of any clients and sweeps, in the order in which they take
    effect. *)
Inductive Event :=
| Call (key : string) (now : Z)
| Sweep (now : Z).

Definition time (e : Event) : Z :=
  match e with Call _ now => now | Sweep now => now end.

(** The clock read inside the atomic step never runs backwards. *)
Fixpoint chronological (from : Z) (es : list Event) : bool :=
  match es with
  | [] => true
  | e :: es' => (from <=? time e) && chronological (time e) es'
  end.

(** A run returns, for every call, its key, its time and its answer. *)
Fixpoint run (limit : nat) (window : Z) (store : gmap string (list Z))
    (es : list Event) : list (string * Z * bool) * gmap string (list Z) :=
  match es with
  | [] => ([], store)
  | Call key now :: es' =>
      let '(allowed, store') := tryConsume key limit window now store in
      let '(answers, final) := run limit window store' es' in
      ((key, now, allowed) :: answers, final)
  | Sweep now :: es' => run limit window (sweep window now store) es'
  end.

(** The times of the allowed calls of [key], oldest first. *)
Definition allowedTimes (key : string) (answers : list (string * Z * bool)) : list Z :=
  omap (fun '(k, now, allowed) =>
          if bool_decide (k = key) && allowed then Some now else None)
       answers.

(** How many calls of [key] were allowed at a time in [from, from + window]. *)
Definition allowedWithin (key : string) (from window : Z)
    (answers : list (string * Z * bool)) : nat :=
  length (filter (fun t => from <= t <= from + window) (allowedTimes key answers)).

End RateLimiter.

(** ** More of the JavaScript string operations *)

Module JsText.

(** [s.split(sep)] for a separator of one code unit: the pieces between
    the separators, one more than there are separators (the empty string
    gives one empty piece). *)
Fixpoint split (sep : N) (s : Js.jsstring) : list Js.jsstring :=
  match s with
  | [] => [[]]
  | c :: s' =>
      if (c =? sep)%N then [] :: split sep s'
      else match split sep s' with
           | piece :: pieces => (c :: piece) :: pieces
           | [] => [[c]]
           end
  end.

(** [pieces.join(sep)] *)
Fixpoint join (sep : Js.jsstring) (pieces : list Js.jsstring) : Js.jsstring :=
  match pieces with
  | [] => []
  | [piece] => piece
  | piece :: pieces' => piece ++ sep ++ join sep pieces'
  end.

Definition comma : N := 44.
Definition space : N := 32.

End JsText.

(** ** Posts and tags ([types.ts]) *)

Module Tag.
Record t := mk {
  id : Z;
  name : Js.jsstring;
  slug : string;
  description : option Js.jsstring;
  color : string
}.
End Tag.

Module Post.
(** [Post extends PostListItem] *)
Record t := mk {
  id : Z;
  slug : string;
  title : Js.jsstring;
  excerpt : option Js.jsstring;
  cover_image : option Js.jsstring;
  reading_time : Z;
  is_featured : bool;
  views : Z;
  created_at : string;
  published_at : option string;
  is_published : bool;
  tags : list Tag.t;
  content : Js.jsstring;
  updated_at : string;
  comments : list Comment
}.
End Post.

(** ** The post editor ([PostEditor] in [components/PostEditor.tsx]) *)

Module Editor.

(** The [useState] cells of the editor. *)
Record State := mkState {
  title : Js.jsstring;
  excerpt : Js.jsstring;
  content : Js.jsstring;
  coverImage : Js.jsstring;
  tags : Js.jsstring;
  isPublished : bool;
  isFeatured : bool;
  notifySubscribers : bool;
  showPreview : bool
}.

Definition initialState : State := mkState [] [] [] [] [] false false false false.

(** [isEditing = !!slug] *)
Definition isEditing (slug : option string) : bool :=
  match slug with
  | Some s => negb (String.eqb s "")
  | None => false
  end.

(** The effect that fills the form once the post is loaded: optional
    texts fall back to the empty string, the tag names are joined with a
    comma and a space. *)
Definition loadPost (post : Post.t) (s : State) : State :=
  mkState (Post.title post)
          (default [] (Post.excerpt post) : Js.jsstring)
          (Post.content post)
          (default [] (Post.cover_image post) : Js.jsstring)
          (JsText.join [JsText.comma; JsText.space] (map Tag.name (Post.tags post)))
          (Post.is_published post)
          (Post.is_featured post)
          (notifySubscribers s)
          (showPreview s).

(** The body [handleSubmit] builds. *)
Record PostData := mkPostData {
  pd_title : Js.jsstring;
  pd_excerpt : option Js.jsstring;
  pd_content : Js.jsstring;
  pd_cover_image : option Js.jsstring;
  pd_is_published : bool;
  pd_is_featured : bool;
  pd_tags : list Js.jsstring;
  pd_notify_subscribers : bool
}.

(** [tags.split(',').map((t) => t.trim()).filter(Boolean)] *)
Definition parseTags (tags : Js.jsstring) : list Js.jsstring :=
  List.filter Js.truthy (map Js.trim (JsText.split JsText.comma tags)).

Definition postData (slug : option string) (s : State) : PostData :=
  mkPostData (Js.trim (title s))
             (Js.orUndefined (Js.trim (excerpt s)))
             (Js.trim (content s))
             (Js.orUndefined (Js.trim (coverImage s)))
             (isPublished s)
             (isFeatured s)
             (parseTags (tags s))
             (negb (isEditing slug) && notifySubscribers s).

Inductive Effect :=
| PreventDefault
| ShowToast (message : string) (kind : Form.ToastKind)
| UpdateMutate (slug : string) (data : PostData)
| CreateMutate (data : PostData).

(** [handleSubmit]: what it does, in order.  [updateMutation.mutate] sends
    [updatePost(slug!, data)], [createMutation.mutate] sends
    [createPost(data)]. *)
Definition handleSubmit (slug : option string) (s : State) : list Effect :=
  PreventDefault ::
  if negb (Js.truthy (Js.trim (title s))) || negb (Js.truthy (Js.trim (content s)))
  then [ShowToast (Form.t "admin.editor.validationError") Form.error_kind]
  else
    if isEditing slug
    then [UpdateMutate (default "" slug) (postData slug s)]
    else [CreateMutate (postData slug s)].

(** The requests of [updatePost] and [createPost]. *)
Definition mutationRequest (e : Effect) : option Api.Request :=
  match e with
  | UpdateMutate slug _ => Some (Api.mkRequest Api.PUT ("/api/posts/" ++ slug) [])
  | CreateMutate _ => Some (Api.mkRequest Api.POST "/api/posts" [])
  | _ => None
  end.

(** What the admin can do to the form.  The notify box is disabled while
    editing and while the post is not marked published. *)
Inductive Event :=
| SetTitle (v : Js.jsstring)
| SetExcerpt (v : Js.jsstring)
| SetContent (v : Js.jsstring)
| SetCoverImage (v : Js.jsstring)
| SetTags (v : Js.jsstring)
| SetIsPublished (b : bool)
| SetIsFeatured (b : bool)
| SetNotifySubscribers (b : bool)
| TogglePreview.

Definition step (slug : option string) (s : State) (e : Event) : option State :=
  match e with
  | SetTitle v =>
      Some (mkState v (excerpt s) (content s) (coverImage s) (tags s)
                    (isPublished s) (isFeatured s) (notifySubscribers s) (showPreview s))
  | SetExcerpt v =>
      Some (mkState (title s) v (content s) (coverImage s) (tags s)
                    (isPublished s) (isFeatured s) (notifySubscribers s) (showPreview s))
  | SetContent v =>
      if showPreview s then None
      else Some (mkState (title s) (excerpt s) v (coverImage s) (tags s)
                         (isPublished s) (isFeatured s) (notifySubscribers s)
                         (showPreview s))
  | SetCoverImage v =>
      Some (mkState (title s) (excerpt s) (content s) v (tags s)
                    (isPublished s) (isFeatured s) (notifySubscribers s) (showPreview s))
  | SetTags v =>
      Some (mkState (title s) (excerpt s) (content s) (coverImage s) v
                    (isPublished s) (isFeatured s) (notifySubscribers s) (showPreview s))
  | SetIsPublished b =>
      Some (mkState (title s) (excerpt s) (content s) (coverImage s) (tags s)
                    b (isFeatured s) (notifySubscribers s) (showPreview s))
  | SetIsFeatured b =>
      Some (mkState (title s) (excerpt s) (content s) (coverImage s) (tags s)
                    (isPublished s) b (notifySubscribers s) (showPreview s))
  | SetNotifySubscribers b =>
      if isEditing slug || negb (isPublished s) then None
      else Some (mkState (title s) (excerpt s) (content s) (coverImage s) (tags s)
                         (isPublished s) (isFeatured s) b (showPreview s))
  | TogglePreview =>
      Some (mkState (title s) (excerpt s) (content s) (coverImage s) (tags s)
                    (isPublished s) (isFeatured s) (notifySubscribers s)
                    (negb (showPreview s)))
  end.

Fixpoint run (slug : option string) (s : State) (es : list Event) : option State :=
  match es with
  | [] => Some s
  | e :: es' => s' ← step slug s e ; run slug s' es'
  end.

End Editor.

(** ** Uploading an image in the editor ([uploadMutation] of [PostEditor]) *)

Module Upload.

(** [getImageUrl]; [apiBase] is [API_BASE_URL] of the configuration, which
    is not part of these sources. *)
Definition getImageUrl (apiBase filename : Js.jsstring) : Js.jsstring :=
  apiBase ++ Js.ofString "/api/images/" ++ filename.

(** [onSuccess]: the markdown of the image goes after what is written, two
    line feeds in between. *)
Definition onSuccess (apiBase filename : Js.jsstring) (s : Editor.State)
    : Editor.State :=
  let imageUrl := getImageUrl apiBase filename in
  let imageMarkdown := Js.ofString "![Image](" ++ imageUrl ++ Js.ofString ")" in
  Editor.mkState (Editor.title s) (Editor.excerpt s)
                 (Editor.content s ++ [10; 10]%N ++ imageMarkdown)
                 (Editor.coverImage s) (Editor.tags s)
                 (Editor.isPublished s) (Editor.isFeatured s)
                 (Editor.notifySubscribers s) (Editor.showPreview s).

End Upload.

(** ** The subscribe dialog ([SubscribeModal]) *)

Module Subscribe.

Record State := mkState {
  email : Js.jsstring;
  success : bool
}.

Definition initialState : State := mkState [] false.

(** [handleSubmit]: nothing for a blank address, else
    [subscribeMutation.mutate(email.trim())], which posts the address to
    [/api/subscribers]. *)
Definition handleSubmit (s : State) : option Js.jsstring :=
  if negb (Js.truthy (Js.trim (email s))) then None else Some (Js.trim (email s)).

(** [onSuccess] of the mutation. *)
Definition onSuccess (s : State) : State := mkState [] true.

(** [handleClose] *)
Definition handleClose (s : State) : State := mkState [] false.

End Subscribe.

(** ** The admin token ([api/client.ts]) *)

Module Auth.

Definition adminTokenKey : string := "adminToken".

Definition setAdminToken (token : Js.jsstring) (storage : gmap string Js.jsstring)
    : gmap string Js.jsstring :=
  <[adminTokenKey := token]> storage.

Definition getAdminToken (storage : gmap string Js.jsstring) : option Js.jsstring :=
  storage !! adminTokenKey.

Definition clearAdminToken (storage : gmap string Js.jsstring)
    : gmap string Js.jsstring :=
  delete adminTokenKey storage.

(** [!!getAdminToken()]: [null] and the empty string are falsy. *)
Definition isAdmin (storage : gmap string Js.jsstring) : bool :=
  match getAdminToken storage with
  | Some token => Js.truthy token
  | None => false
  end.

(** The headers every request starts with. *)
Definition defaultHeaders : gmap string Js.jsstring :=
  {[ "Content-Type" := Js.ofString "application/json" ]}.

(** The request interceptor: "Add admin token to requests if available". *)
Definition interceptor (storage : gmap string Js.jsstring)
    (headers : gmap string Js.jsstring) : gmap string Js.jsstring :=
  match storage !! adminTokenKey with
  | Some adminToken =>
      if Js.truthy adminToken
      then <["Authorization" := Js.ofString "Bearer " ++ adminToken]> headers
      else headers
  | None => headers
  end.

(** The answer to [POST /api/auth/login] as [login] reads it. *)
Record LoginData := mkLoginData {
  success : bool;
  access_token : option Js.jsstring
}.

Inductive LoginResponse :=
| Answered (data : LoginData)
| Refused.

(** [login]: when the answer says success and carries a non-empty access
    token, [setAdminToken] is called, and [true] is returned once it has
    returned.  The request and [setAdminToken] are both inside the [try]:
    a failed request, and a [localStorage.setItem] that throws ([accepts]
    says whether the browser takes the write), end in the [catch], which
    returns [false].  Every other answer gives [false] as well. *)
Definition login (server : Js.jsstring -> LoginResponse) (accepts : Storage.Quota)
    (token : Js.jsstring) (storage : gmap string Js.jsstring)
    : bool * gmap string Js.jsstring :=
  match server token with
  | Answered data =>
      match access_token data with
      | Some access =>
          if success data && Js.truthy access
          then match Storage.setItem accepts adminTokenKey access storage with
               | Some storage' => (true, storage')
               | None => (false, storage)
               end
          else (false, storage)
      | None => (false, storage)
      end
  | Refused => (false, storage)
  end.

(** The login card and the logout button of [AdminPage]. *)
Record Page := mkPage {
  authenticated : bool;
  token : Js.jsstring;
  loginError : option string;
  storage : gmap string Js.jsstring;
  attempts : list Js.jsstring
}.

(** [useState(isAdmin())] *)
Definition initial (storage : gmap string Js.jsstring) : Page :=
  mkPage (isAdmin storage) [] None storage [].

(** [handleLogin] *)
Definition handleLogin (server : Js.jsstring -> LoginResponse) (accepts : Storage.Quota)
    (p : Page) : Page :=
  if negb (Js.truthy (Js.trim (token p))) then p
  else
    let '(ok, storage') := login server accepts (Js.trim (token p)) (storage p) in
    if ok
    then mkPage true [] None storage' (attempts p ++ [Js.trim (token p)])
    else mkPage (authenticated p) (token p) (Some "Invalid admin token") storage'
                (attempts p ++ [Js.trim (token p)]).

(** [handleLogout] *)
Definition handleLogout (p : Page) : Page :=
  mkPage false (token p) (loginError p) (clearAdminToken (storage p)) (attempts p).

(** The login form is there while not authenticated, the logout button
    once authenticated.  A submission meets the server and the browser as
    they are at that moment. *)
Inductive Event :=
| TypeToken (v : Js.jsstring)
| SubmitLogin (server : Js.jsstring -> LoginResponse) (accepts : Storage.Quota)
| Logout.

Definition step (p : Page) (e : Event) : option Page :=
  match e with
  | TypeToken v =>
      if authenticated p then None
      else Some (mkPage (authenticated p) v (loginError p) (storage p) (attempts p))
  | SubmitLogin server accepts =>
      if authenticated p then None else Some (handleLogin server accepts p)
  | Logout =>
      if authenticated p then Some (handleLogout p) else None
  end.

Fixpoint run (p : Page) (es : list Event) : option Page :=
  match es with
  | [] => Some p
  | e :: es' => p' ← step p e ; run p' es'
  end.

End Auth.

(** ** Listing posts ([getPosts] in [api/client.ts]) *)

Module Posts.

(** The query is the [URLSearchParams] in the order of its [append]s:
    [tag] is added when it is a non-empty string, [featured] when it is
    given at all, [include_drafts] only when drafts are asked for. *)
Definition getPosts (page perPage : Z) (tag : option string) (featured : option bool)
    (includeDrafts : bool) : Api.Request :=
  let params := [("page", Api.numberToString page);
                 ("per_page", Api.numberToString perPage)] in
  let params :=
    match tag with
    | Some tg => if String.eqb tg "" then params else params ++ [("tag", tg)]
    | None => params
    end in
  let params :=
    match featured with
    | Some b => params ++ [("featured", if b then "true" else "false")]
    | None => params
    end in
  let params := if includeDrafts then params ++ [("include_drafts", "true")] else params in
  Api.mkRequest Api.GET "/api/posts" params.

(** The three listings of the admin page and the public posts page. *)
Definition adminPosts (page : Z) : Api.Request := getPosts page 5 None None true.
Definition newsletterPosts (page : Z) : Api.Request := getPosts page 5 None None false.
Definition publicPosts (page : Z) : Api.Request := getPosts page 12 None None false.

End Posts.

(** ** Choosing posts for a newsletter ([AdminPage], subscribers tab) *)

Module Newsletter.

Record State := mkState {
  selectedPosts : list Z;
  newsletterSubject : Js.jsstring;
  newsletterMessage : Js.jsstring;
  isPending : bool;
  sent : list (list Z * Js.jsstring * option Js.jsstring)
}.

Definition initialState : State := mkState [] [] [] false [].

(** [selectedPosts.includes(id)] *)
Definition includes (id : Z) (l : list Z) : bool := bool_decide (id ∈ l).

(** The check box of a post: ticking appends the id, unticking filters it
    out.  The box is ticked exactly when the id is selected, so a change
    ticks an unselected post and unticks a selected one. *)
Definition onChange (postId : Z) (s : State) : State :=
  mkState
    (if includes postId (selectedPosts s)
     then List.filter (fun id => negb (id =? postId)) (selectedPosts s)
     else selectedPosts s ++ [postId])
    (newsletterSubject s) (newsletterMessage s) (isPending s) (sent s).

(** [disabled] of the send button. *)
Definition sendDisabled (s : State) : bool :=
  (length (selectedPosts s) =? 0)%nat
  || negb (Js.truthy (Js.trim (newsletterSubject s)))
  || isPending s.

(** The body handed to [sendNewsletter]. *)
Definition payload (s : State) : list Z * Js.jsstring * option Js.jsstring :=
  (selectedPosts s, newsletterSubject s, Js.orUndefined (newsletterMessage s)).

Inductive Event :=
| Change (row : nat)
| SetSubject (v : Js.jsstring)
| SetMessage (v : Js.jsstring)
| Send
| Succeeded
| Failed.

(** [rows] are the posts of the newsletter page on screen.  [Send] is the
    click the admin confirmed; [Succeeded] and [Failed] end the pending
    request, the first clearing the form. *)
Definition step (rows : list Z) (s : State) (e : Event) : option State :=
  match e with
  | Change row => postId ← rows !! row ; Some (onChange postId s)
  | SetSubject v =>
      Some (mkState (selectedPosts s) v (newsletterMessage s) (isPending s) (sent s))
  | SetMessage v =>
      Some (mkState (selectedPosts s) (newsletterSubject s) v (isPending s) (sent s))
  | Send =>
      if sendDisabled s then None
      else Some (mkState (selectedPosts s) (newsletterSubject s) (newsletterMessage s)
                         true (sent s ++ [payload s]))
  | Succeeded =>
      if isPending s then Some (mkState [] [] [] false (sent s)) else None
  | Failed =>
      if isPending s
      then Some (mkState (selectedPosts s) (newsletterSubject s) (newsletterMessage s)
                         false (sent s))
      else None
  end.

Fixpoint run (s : State) (es : list (list Z * Event)) : option State :=
  match es with
  | [] => Some s
  | (rows, e) :: es' => s' ← step rows s e ; run s' es'
  end.

End Newsletter.

(** ** What a comment form starts with ([CommentForm], the mount effect) *)

Module Stored.

(** "Load stored user data from localStorage on mount": a stored name or
    address replaces the empty field when it is a non-empty string. *)
Definition fromStorage (key : string) (storage : gmap string Js.jsstring)
    (field : Js.jsstring) : Js.jsstring :=
  match storage !! key with
  | Some stored => if Js.truthy stored then stored else field
  | None => field
  end.

Definition mount (storage : gmap string Js.jsstring) : Form.State :=
  Form.mkState (fromStorage Form.STORAGE_KEY_NAME storage (Form.name Form.initialState))
               (fromStorage Form.STORAGE_KEY_EMAIL storage (Form.email Form.initialState))
               (Form.content Form.initialState)
               (Form.honeypot Form.initialState)
               (Form.isSubmitting Form.initialState)
               (Form.error Form.initialState).

End Stored.

(** ** The comments tab label ([AdminPage]) *)

(** [comments.filter((comment) => !comment.is_approved).length] *)
Definition pendingCount (comments : list Comment) : nat :=
  length (List.filter (fun comment => negb (is_approved comment)) comments).


(** * Vocabulary of the properties *)

(** ** Induction on comment trees *)

Section CommentInduction.
Variable P : Comment -> Prop.
Hypothesis step : forall c, Forall P (replies c) -> P c.

Fixpoint Comment_ind (c : Comment) : P c :=
  step c
    (match c as c0 return Forall P (replies c0) with
     | mkComment _ _ _ _ _ _ _ _ _ rs =>
         (fix all (l : list Comment) : Forall P l :=
            match l with
            | [] => @List.Forall_nil Comment P
            | r :: l' => @List.Forall_cons Comment P r l' (Comment_ind r) (all l')
            end) rs
     end).
End CommentInduction.

(** ** Forms *)

(** A field is blank when it holds nothing but white space; the empty
    field is the case of a missing one. *)
Definition blank (s : Js.jsstring) : Prop :=
  Forall (fun c => Js.isWhiteSpace c = true) s.

(** The required fields pass the check of [handleSubmit]. *)
Definition filled (s : Form.State) : Prop :=
  ~ blank (Form.name s) /\ ~ blank (Form.content s).

(** The body of the request a form sends. *)
Definition submission (props : Form.Props) (formTimestamp : Z) (s : Form.State)
    : CommentCreate.t :=
  CommentCreate.mk (Js.trim (Form.name s)) (Js.orUndefined (Js.trim (Form.email s)))
                   (Js.trim (Form.content s)) (Form.parentId props)
                   (Some (Form.honeypot s)) (Some formTimestamp).

(** What a submission shows to the person who sent it: the error line under
    the form and the toasts. *)
Definition shown (before after : Form.World) : option string * list Form.Effect :=
  (Form.error (Form.form after),
   filter (fun e => Form.isToast e = true) (Form.newEffects before after)).

(** Servers that answer every request the same way. *)
Definition acceptAll (c : Comment) : Form.Server := fun _ _ => Form.Resolved c.
Definition rejectAll (e : Form.ApiError) : Form.Server := fun _ _ => Form.Failed e.

(** Whether the browser lets a submission remember its author: the write
    of the trimmed name goes through, and after it the write of the trimmed
    address, when one was typed. *)
Definition nameAccepted (w : Form.World) : bool :=
  Form.storageAccepts w Form.STORAGE_KEY_NAME (Js.trim (Form.name (Form.form w)))
                      (Form.localStorage w).

Definition emailAccepted (w : Form.World) : bool :=
  negb (Js.truthy (Js.trim (Form.email (Form.form w))))
  || Form.storageAccepts w Form.STORAGE_KEY_EMAIL (Js.trim (Form.email (Form.form w)))
       (<[Form.STORAGE_KEY_NAME := Js.trim (Form.name (Form.form w))]>
          (Form.localStorage w)).

Definition authorRemembered (w : Form.World) : bool :=
  nameAccepted w && emailAccepted w.

(** ** Threads *)

(** What holds of every instance below a parent with key [parent] that
    renders its children at depth [d]. *)
Definition instanceOk (admin : bool) (opened : gset (list Z)) (postSlug : string)
    (parent : list Z) (d : nat) (v : Thread.View) : Prop :=
  (d <= Thread.depth v)%nat
  /\ length (Thread.key v) = (length parent + (Thread.depth v - d) + 1)%nat
  /\ Thread.actions v
     = (if (Thread.depth v <? Thread.maxDepth)%nat
        then Some (Thread.mkActions
                     (if bool_decide (Thread.key v ∈ opened)
                      then Form.t "comments.cancel"
                      else Form.t "comments.reply")
                     admin)
        else None)
  /\ Thread.replyForm v
     = (if bool_decide (Thread.key v ∈ opened)
        then Some (Form.mkProps postSlug (Some (id (Thread.comment v))) true true)
        else None).

(** The open reply forms belong to instances above the cap. *)
Definition opened_above_cap (p : Thread.Page) : Prop :=
  forall k, k ∈ Thread.opened p -> (length k <= Thread.maxDepth)%nat.

Definition idsPlaced (l : list (Comment * nat)) : list (Z * nat) :=
  map (fun x => (id x.1, x.2)) l.

(** ** Moderation *)

(** The only moderation data of a comment is [is_approved]: a reading of
    the moderation state that looks at nothing else. *)
Definition readsModerationData (status_of : Comment -> Moderation.Status) : Prop :=
  forall c c', is_approved c = is_approved c' -> status_of c = status_of c'.

(** ** Rate limiting *)

(** The store holds, for every key, the allowed times that are not older
    than one window before the key was last looked at. *)
Definition tracks (window : Z) (hist : list (string * Z * bool))
    (store : gmap string (list Z)) (T : Z) : Prop :=
  forall key, exists Tk,
    Tk <= T
    /\ default [] (store !! key)
       = filter (fun t => Tk - window <= t) (RateLimiter.allowedTimes key hist).

Definition bounded (limit : nat) (window : Z) (hist : list (string * Z * bool)) : Prop :=
  forall key from, (RateLimiter.allowedWithin key from window hist <= limit)%nat.

(** ** More vocabulary *)

(** The React keys of the instances a forest is rendered to, parents
    first. *)
Fixpoint keysFrom (parent : list Z) (c : Comment) : list (list Z) :=
  (parent ++ [id c]) :: flat_map (keysFrom (parent ++ [id c])) (replies c).

Definition treeKeys (comments : list Comment) : list (list Z) :=
  flat_map (keysFrom []) comments.

(** Nobody logs in during the events. *)
Definition noLogin (es : list Thread.Event) : Prop :=
  Forall (fun e => e <> Thread.SetAdmin true) es.

(** A text without leading or trailing white space. *)
Definition trimmed (s : Js.jsstring) : Prop := Js.trim s = s.

(** A tag name the tags field can hold: not empty, trimmed, no comma. *)
Definition plainTagName (name : Js.jsstring) : Prop :=
  name <> [] /\ trimmed name /\ ~ In JsText.comma name.

(** What a newsletter request may look like: some posts, none twice, a
    subject that is not blank, a message that is left out or not empty. *)
Definition goodPayload (payload : list Z * Js.jsstring * option Js.jsstring) : Prop :=
  payload.1.1 <> [] /\ NoDup payload.1.1 /\ ~ blank payload.1.2
  /\ payload.2 <> Some [].

(** ** Sample data *)

(** A thread with a root, two replies and a reply to the first reply. *)
Definition sampleThread : list Comment :=
  [mkComment 1 1 None (Js.ofString "ann") None (Js.ofString "root") true None "" [
     mkComment 2 1 (Some 1) (Js.ofString "bob") None (Js.ofString "re") true None "" [
       mkComment 4 1 (Some 2) (Js.ofString "ann") None (Js.ofString "re re") true None "" []];
     mkComment 3 1 (Some 1) (Js.ofString "cy") None (Js.ofString "re") true None "" []]].

(** A thread where every comment answers the one before, six deep. *)
Definition replyTo (i : Z) (rs : list Comment) : Comment :=
  mkComment i 1 (if (i =? 0) then None else Some (i - 1)) (Js.ofString "ann") None
            (Js.ofString "well") true None "2025-01-01T00:00:00" rs.

Definition deepChain : list Comment :=
  [replyTo 0 [replyTo 1 [replyTo 2 [replyTo 3 [replyTo 4 [replyTo 5 []]]]]]].

(** The visitor opened the reply form of the comment at depth three of
    [deepChain]. *)
Definition replyOpened : Thread.Page :=
  Thread.mkPage deepChain (∅ ∪ {[ [0; 1; 2; 3] ]}) false [].

Definition replyOpenedInstance : Thread.View :=
  Thread.CommentThread false (∅ ∪ {[ [0; 1; 2; 3] ]}) "hello-world" [0; 1; 2] 3
                       (replyTo 3 [replyTo 4 [replyTo 5 []]]).

Definition rootFormProps : Form.Props := Form.mkProps "hello-world" None false false.

(** A visitor who typed only spaces as a name. *)
Definition blankNameWorld : Form.World :=
  Form.mkWorld
    (Form.mkState (Js.ofString "  ") [] (Js.ofString "Nice post") [] false None)
    ∅ [] Storage.unlimited.

(** A visitor who filled the form, and the comment the server stored for her
    without approving it. *)
Definition filledWorld : Form.World :=
  Form.mkWorld
    (Form.mkState (Js.ofString " Ann ") (Js.ofString "ann@example.org")
                  (Js.ofString "Nice post") [] false None)
    ∅ [] Storage.unlimited.

(** The same visitor in a browser whose local storage takes nothing. *)
Definition fullStorageWorld : Form.World :=
  Form.mkWorld (Form.form filledWorld) ∅ [] Storage.full.

Definition heldComment : Comment :=
  mkComment 7 1 None (Js.ofString "Ann") (Some (Js.ofString "ann@example.org"))
            (Js.ofString "Nice post") false None "2025-01-01T00:00:00" [].

(** The comment of [heldComment] after the moderator rejected it. *)
Definition rejectedComment : Comment :=
  mkComment 7 1 None (Js.ofString "Ann") (Some (Js.ofString "ann@example.org"))
            (Js.ofString "Nice post") (Moderation.flag Moderation.Rejected) None
            "2025-01-01T00:00:00" [].

(** A bot that filled the hidden field. *)
Definition honeypotWorld : Form.World :=
  Form.mkWorld
    (Form.mkState (Js.ofString "Bot") [] (Js.ofString "Buy now")
                  (Js.ofString "http://spam.example") false None)
    ∅ [] Storage.unlimited.

(** Two clients behind the limit of two events per ten seconds. *)
Definition burst : list RateLimiter.Event :=
  [RateLimiter.Call "10.0.0.1" 0; RateLimiter.Call "10.0.0.1" 1;
   RateLimiter.Call "10.0.0.1" 2; RateLimiter.Call "10.0.0.2" 2;
   RateLimiter.Call "10.0.0.1" 10; RateLimiter.Call "10.0.0.1" 11;
   RateLimiter.Sweep 30; RateLimiter.Call "10.0.0.1" 31].

(** A server that knows one admin token, and a visit to the admin page:
    a wrong token, the right one with spaces around it, then logout. *)
Definition secretServer : Js.jsstring -> Auth.LoginResponse := fun token =>
  if bool_decide (token = Js.ofString "secret")
  then Auth.Answered (Auth.mkLoginData true (Some (Js.ofString "jwt")))
  else Auth.Refused.

Definition adminVisit : list Auth.Event :=
  [Auth.TypeToken (Js.ofString "guess");
   Auth.SubmitLogin secretServer Storage.unlimited;
   Auth.TypeToken (Js.ofString " secret ");
   Auth.SubmitLogin secretServer Storage.unlimited;
   Auth.Logout].

Definition afterAdminVisit : Auth.Page :=
  Auth.mkPage false [] None
              (Auth.clearAdminToken (Auth.setAdminToken (Js.ofString "jwt") ∅))
              [Js.ofString "guess"; Js.ofString "secret"].

(** A post with two tags, as the editor loads it. *)
Definition taggedPost : Post.t :=
  Post.mk 3 "hello-world" (Js.ofString "Hello") None None 2 false 10
          "2025-01-01T00:00:00" (Some "2025-01-02T00:00:00") true
          [Tag.mk 1 (Js.ofString "rocq") "rocq" None "#000000";
           Tag.mk 2 (Js.ofString "type theory") "type-theory" None "#ffffff"]
          (Js.ofString "Some text") "2025-01-03T00:00:00" [].

(** A new post marked published, the notify box ticked, then unmarked. *)
Definition notifyThenUnpublish : list Editor.Event :=
  [Editor.SetIsPublished true; Editor.SetNotifySubscribers true;
   Editor.SetIsPublished false].

(** The admin ticks two posts, unticks the first, writes a subject and
    sends. *)
Definition newsletterSession : list (list Z * Newsletter.Event) :=
  [([11; 12; 13], Newsletter.Change 0); ([11; 12; 13], Newsletter.Change 2);
   ([11; 12; 13], Newsletter.Change 0);
   ([11; 12; 13], Newsletter.SetSubject (Js.ofString "News"));
   ([11; 12; 13], Newsletter.Send)].

Definition newsletterSent : Newsletter.State :=
  Newsletter.mkState [13] (Js.ofString "News") [] true
                     [([13], Js.ofString "News", None)].

(** * Properties *)

(** ** The definitions at work *)

Example trim_strips_both_ends :
  Js.trim ([0x00A0; 0x0009]%N ++ Js.ofString " a b " ++ [0x000A; 0x3000]%N)
  = Js.ofString "a b".
Proof. reflexivity. Qed.

Example trim_of_spaces_is_falsy : Js.truthy (Js.trim (Js.ofString "   ")) = false.
Proof. reflexivity. Qed.

Example countAllComments_sampleThread : countAllComments sampleThread = 4%nat.
Proof. reflexivity. Qed.

Example countAllComments_deepChain : countAllComments deepChain = 6%nat.
Proof. reflexivity. Qed.

Example deepChain_actions :
  map (fun v => (Thread.depth v, bool_decide (is_Some (Thread.actions v))))
      (Thread.instances
         (Thread.threads (Thread.render "hello-world" (Thread.initial deepChain true))))
  = [(0, true); (1, true); (2, true); (3, true); (4, false); (5, false)]%nat.
Proof. vm_compute. reflexivity. Qed.

Example listing_request :
  Api.getAllComments 2 10 (Some "pending")
  = Api.mkRequest Api.GET "/api/comments"
                  [("page", "2"); ("per_page", "10"); ("status", "pending")].
Proof. reflexivity. Qed.

Example default_listing_request_has_no_status :
  Api.query Api.getAllComments_default = [("page", "1"); ("per_page", "50")].
Proof. reflexivity. Qed.

Example held_comment_row :
  Admin.statusBadge heldComment = ("status-badge draft", "admin.comments.pending")
  /\ Admin.rowActions heldComment = [Admin.Approve; Admin.Delete].
Proof. split; reflexivity. Qed.

Example published_submission :
  Form.effects (Form.submit (acceptAll (replyTo 0 [])) rootFormProps 1700000000 filledWorld)
  = [Form.PreventDefault;
     Form.CreateComment "hello-world"
       (CommentCreate.mk (Js.ofString "Ann") (Some (Js.ofString "ann@example.org"))
                         (Js.ofString "Nice post") None (Some []) (Some 1700000000));
     Form.ShowToast "comments.commentAdded" Form.success;
     Form.OnCommentAdded].
Proof. reflexivity. Qed.

Example sixth_comment_in_five_minutes_is_refused :
  map (fun a => a.2)
      (RateLimiter.run 5 300 ∅
         (map (RateLimiter.Call "10.0.0.1") [0; 10; 20; 30; 40; 50; 300; 301])).1
  = [true; true; true; true; true; false; false; true].
Proof. vm_compute. reflexivity. Qed.

(** ** Counting *)

Lemma countReplies_eq (comment : Comment) :
  countReplies comment = countAllComments (replies comment).
Proof. by destruct comment. Qed.

Lemma fold_left_pointwise {A B} (f g : A -> B -> A) (l : list B) (a : A) :
  (forall x y, f x y = g x y) -> fold_left f l a = fold_left g l a.
Proof.
  intros Hfg. revert a. induction l as [|y l IH]; intros a; simpl; [done|].
  by rewrite Hfg, IH.
Qed.

(** The definition satisfies the equation of the source. *)
Lemma countAllComments_eq (comments : list Comment) :
  countAllComments comments =
  fold_left
    (fun count comment => (count + 1 + countAllComments (replies comment))%nat)
    comments 0%nat.
Proof.
  unfold countAllComments at 1.
  apply fold_left_pointwise. intros n c. by rewrite countReplies_eq.
Qed.

Lemma fold_count_length (comments : list Comment) (n : nat) :
  Forall (fun c => countReplies c = length (allNodes (replies c))) comments ->
  fold_left (fun count comment => (count + 1 + countReplies comment)%nat) comments n
  = (n + length (allNodes comments))%nat.
Proof.
  intros H. revert n. unfold allNodes in *.
  induction H as [|c cs Hc _ IH]; intros n; simpl; [lia|].
  rewrite IH, Hc. destruct c; simpl. rewrite !length_app. simpl. lia.
Qed.

Lemma countReplies_length (c : Comment) :
  countReplies c = length (allNodes (replies c)).
Proof.
  induction c as [c IH] using Comment_ind.
  rewrite countReplies_eq. unfold countAllComments.
  by rewrite fold_count_length.
Qed.

Lemma countAllComments_length (comments : list Comment) :
  countAllComments comments = length (allNodes comments).
Proof.
  unfold countAllComments. rewrite fold_count_length; [done|].
  apply Forall_forall. intros c _. apply countReplies_length.
Qed.

Lemma depthsFrom_nodes (c : Comment) :
  forall d, map fst (depthsFrom d c) = nodesOf c.
Proof.
  induction c as [c IH] using Comment_ind. intros d.
  destruct c as [? ? ? ? ? ? ? ? ? rs]; simpl in *. f_equal.
  induction IH as [|r rs' Hr _ IHrs]; simpl; [done|].
  by rewrite map_app, Hr, IHrs.
Qed.

Lemma treeDepths_nodes (comments : list Comment) :
  map fst (treeDepths comments) = allNodes comments.
Proof.
  unfold treeDepths, allNodes.
  induction comments as [|c cs IH]; simpl; [done|].
  by rewrite map_app, depthsFrom_nodes, IH.
Qed.

(** C1: [countAllComments] returns the number of nodes of the forest, each
    node counted once at whatever depth it sits (the count is the length of
    the list of nodes, which is also the length of the list of their depths);
    so a forest whose nodes sit at depths 0, 1, 1, 2 gives 4. *)
Theorem C1_countAllComments_counts_every_node :
  (forall comments,
      countAllComments comments = length (allNodes comments)
      /\ countAllComments comments = length (treeDepths comments))
  /\ (forall comments,
        map snd (treeDepths comments) ≡ₚ [0; 1; 1; 2]%nat ->
        countAllComments comments = 4%nat).
Proof.
  assert (H : forall comments,
             countAllComments comments = length (treeDepths comments)).
  { intros cs. rewrite countAllComments_length, <- treeDepths_nodes.
    by rewrite length_map. }
  split.
  - intros cs. split; [apply countAllComments_length | apply H].
  - intros cs Hp. rewrite H, <- (length_map snd), Hp. reflexivity.
Qed.

Lemma C1_witness :
  map snd (treeDepths sampleThread) = [0; 1; 2; 1]%nat
  /\ length sampleThread = 1%nat
  /\ countAllComments sampleThread = 4%nat.
Proof.
  split; [reflexivity|]. split; [reflexivity|].
  apply (proj2 C1_countAllComments_counts_every_node sampleThread).
  simpl. do 2 apply perm_skip. apply perm_swap.
Defined.

(** ** The comment form *)

Section FormFacts.
Import Form.

Lemma trimStart_blank (s : Js.jsstring) : blank s -> Js.trimStart s = [].
Proof. induction 1 as [|c s Hc _ IH]; simpl; [done|]. by rewrite Hc. Qed.

Lemma trimStart_nil_blank (s : Js.jsstring) : Js.trimStart s = [] -> blank s.
Proof.
  induction s as [|c s IH]; simpl; [constructor|].
  destruct (Js.isWhiteSpace c) eqn:Hc; [|done].
  intros H. constructor; [exact Hc | exact (IH H)].
Qed.

Lemma trimStart_idempotent (s : Js.jsstring) :
  Js.trimStart (Js.trimStart s) = Js.trimStart s.
Proof.
  induction s as [|c s IH]; simpl; [done|].
  destruct (Js.isWhiteSpace c) eqn:Hc; [done|]. simpl. by rewrite Hc.
Qed.

Lemma trim_blank (s : Js.jsstring) : blank s <-> Js.trim s = [].
Proof.
  unfold Js.trim, Js.trimEnd. split.
  - intros H. by rewrite (trimStart_blank s H).
  - intros H. apply trimStart_nil_blank.
    rewrite <- trimStart_idempotent. apply trimStart_blank.
    apply (f_equal (@rev N)) in H. rewrite rev_involutive in H. simpl in H.
    apply trimStart_nil_blank, List.Forall_rev in H.
    by rewrite rev_involutive in H.
Qed.

Lemma truthy_trim (s : Js.jsstring) : Js.truthy (Js.trim s) = false <-> blank s.
Proof.
  rewrite trim_blank. destruct (Js.trim s); simpl; split; congruence.
Qed.

Lemma check_blank (s : State) :
  blank (name s) \/ blank (content s) ->
  negb (Js.truthy (Js.trim (name s))) || negb (Js.truthy (Js.trim (content s))) = true.
Proof.
  intros [H|H]; apply truthy_trim in H; rewrite H; simpl; [done|].
  apply orb_true_r.
Qed.

Lemma check_filled (s : State) :
  filled s ->
  negb (Js.truthy (Js.trim (name s))) || negb (Js.truthy (Js.trim (content s))) = false.
Proof.
  intros [Hn Hc].
  destruct (Js.truthy (Js.trim (name s))) eqn:En;
    [|by apply truthy_trim in En].
  destruct (Js.truthy (Js.trim (content s))) eqn:Ec;
    [done|by apply truthy_trim in Ec].
Qed.

Variable server : Server.
Variable props : Props.
Variable formTimestamp : Z.
Variable w : World.

(** Validation fails: only the error cell changes. *)
Lemma submit_blank :
  blank (name (form w)) \/ blank (content (form w)) ->
  submit server props formTimestamp w
  = mkWorld (mkState (name (form w)) (email (form w)) (content (form w))
                     (honeypot (form w)) (isSubmitting (form w))
                     (Some (t "comments.validationError")))
            (localStorage w)
            (effects w ++ [PreventDefault])
            (storageAccepts w).
Proof.
  intros H. unfold submit, handleSubmit.
  unfold mbind, M_bind. simpl. by rewrite (check_blank _ H).
Qed.

(** The request fails: the generic error, whatever the failure was. *)
Lemma submit_failed (e : ApiError) :
  filled (form w) ->
  server (postSlug props) (submission props formTimestamp (form w)) = Failed e ->
  submit server props formTimestamp w
  = mkWorld (mkState (name (form w)) (email (form w)) (content (form w))
                     (honeypot (form w)) false (Some (t "comments.error")))
            (localStorage w)
            (effects w ++ [PreventDefault]
             ++ [CreateComment (postSlug props)
                               (submission props formTimestamp (form w))])
            (storageAccepts w).
Proof.
  intros Hf Hs. unfold submit, handleSubmit.
  unfold mbind, M_bind. simpl. rewrite (check_filled _ Hf).
  unfold tryCatchFinally, mbind, M_bind, createComment. simpl.
  unfold submission in Hs. rewrite Hs. simpl. by rewrite <- app_assoc.
Qed.

(** The request succeeds and the author is remembered. *)
Lemma submit_resolved (c : Comment) :
  filled (form w) ->
  server (postSlug props) (submission props formTimestamp (form w)) = Resolved c ->
  authorRemembered w = true ->
  submit server props formTimestamp w
  = mkWorld (mkState (name (form w)) (email (form w)) []
                     (honeypot (form w)) false None)
            ((if Js.truthy (Js.trim (email (form w)))
              then <[STORAGE_KEY_EMAIL := Js.trim (email (form w))]>
              else fun m => m)
               (<[STORAGE_KEY_NAME := Js.trim (name (form w))]> (localStorage w)))
            (effects w ++ [PreventDefault]
             ++ [CreateComment (postSlug props)
                               (submission props formTimestamp (form w))]
             ++ (if is_approved c
                 then [ShowToast (t "comments.commentAdded") success; OnCommentAdded]
                 else [ShowToast (t "comments.awaitingApproval") info])
             ++ (if hasOnCancel props then [OnCancel] else []))
            (storageAccepts w).
Proof.
  intros Hf Hs Ha. unfold submit, handleSubmit.
  unfold mbind, M_bind. simpl. rewrite (check_filled _ Hf).
  unfold tryCatchFinally, mbind, M_bind, createComment. simpl.
  unfold submission in Hs. rewrite Hs. simpl.
  apply andb_prop in Ha as [Hn He]. unfold nameAccepted in Hn.
  unfold emailAccepted in He.
  unfold localStorage_setItem, Storage.setItem. simpl. rewrite Hn. simpl.
  destruct (Js.truthy (Js.trim (email (form w)))); simpl in *.
  - unfold localStorage_setItem, Storage.setItem. simpl. rewrite He. simpl.
    destruct (is_approved c), (hasOnCancel props); simpl; by rewrite <- ?app_assoc.
  - destruct (is_approved c), (hasOnCancel props); simpl; by rewrite <- ?app_assoc.
Qed.

(** The request succeeds but a write to the local storage throws: the
    [catch] block runs, as for a request that failed.  Only the name may
    have been stored by then. *)
Lemma submit_refused (c : Comment) :
  filled (form w) ->
  server (postSlug props) (submission props formTimestamp (form w)) = Resolved c ->
  authorRemembered w = false ->
  submit server props formTimestamp w
  = mkWorld (mkState (name (form w)) (email (form w)) (content (form w))
                     (honeypot (form w)) false (Some (t "comments.error")))
            (if nameAccepted w
             then <[STORAGE_KEY_NAME := Js.trim (name (form w))]> (localStorage w)
             else localStorage w)
            (effects w ++ [PreventDefault]
             ++ [CreateComment (postSlug props)
                               (submission props formTimestamp (form w))])
            (storageAccepts w).
Proof.
  intros Hf Hs Ha. unfold submit, handleSubmit.
  unfold mbind, M_bind. simpl. rewrite (check_filled _ Hf).
  unfold tryCatchFinally, mbind, M_bind, createComment. simpl.
  unfold submission in Hs. rewrite Hs. simpl.
  unfold authorRemembered in Ha.
  unfold localStorage_setItem at 1. unfold Storage.setItem. simpl.
  destruct (nameAccepted w) eqn:Hn; unfold nameAccepted in Hn; rewrite Hn; simpl.
  - simpl in Ha. unfold emailAccepted in Ha.
    destruct (Js.truthy (Js.trim (email (form w)))); simpl in *; [|done].
    unfold localStorage_setItem, Storage.setItem. simpl. rewrite Ha. simpl.
    by rewrite <- app_assoc.
  - by rewrite <- app_assoc.
Qed.

End FormFacts.

Lemma newEffects_app (w : Form.World) (f : Form.State) (m : gmap string Js.jsstring)
    (es : list Form.Effect) (q : Storage.Quota) :
  Form.newEffects w (Form.mkWorld f m (Form.effects w ++ es) q) = es.
Proof. unfold Form.newEffects. simpl. apply drop_app_length. Qed.

(** C6: when the name or the content is missing or blank, [handleSubmit]
    stops at once: no request is sent, nothing is written to local storage,
    no toast and no callback; the form only gets the validation message,
    which is not the message a failed request gets. *)
Theorem C6_blank_field_rejected_before_any_effect
    (server : Form.Server) (props : Form.Props) (formTimestamp : Z) (w : Form.World) :
  blank (Form.name (Form.form w)) \/ blank (Form.content (Form.form w)) ->
  let w' := Form.submit server props formTimestamp w in
  Form.newEffects w w' = [Form.PreventDefault]
  /\ filter (fun e => Form.isCreateComment e = true) (Form.effects w')
     = filter (fun e => Form.isCreateComment e = true) (Form.effects w)
  /\ Form.localStorage w' = Form.localStorage w
  /\ Form.isSubmitting (Form.form w') = Form.isSubmitting (Form.form w)
  /\ Form.error (Form.form w') = Some (Form.t "comments.validationError")
  /\ forall server2 props2 formTimestamp2 w2 e,
       filled (Form.form w2) ->
       server2 (Form.postSlug props2)
               (submission props2 formTimestamp2 (Form.form w2)) = Form.Failed e ->
       Form.error (Form.form (Form.submit server2 props2 formTimestamp2 w2))
       = Some (Form.t "comments.error")
       /\ Form.error (Form.form (Form.submit server2 props2 formTimestamp2 w2))
          <> Form.error (Form.form w').
Proof.
  intros H w'. subst w'. rewrite (submit_blank _ _ _ _ H).
  rewrite newEffects_app. simpl. repeat split; try done.
  - rewrite filter_app. simpl. apply app_nil_r.
  - by rewrite (submit_failed _ _ _ _ e).
  - by rewrite (submit_failed _ _ _ _ e).
Qed.

Lemma C6_witness :
  Form.newEffects blankNameWorld
    (Form.submit (rejectAll (Form.mkApiError (Some 400) None)) rootFormProps 1700000000
                 blankNameWorld)
  = [Form.PreventDefault].
Proof.
  apply (C6_blank_field_rejected_before_any_effect
           (rejectAll (Form.mkApiError (Some 400) None)) rootFormProps 1700000000
           blankNameWorld).
  left. simpl. repeat constructor.
Defined.

(** Where the browser lets the form remember the author, a submission the
    server stored without approving it succeeds (no error, the text box is
    cleared, the name is remembered) and is acknowledged with the "awaiting
    approval" toast, which is not the toast of a published comment. *)
Lemma pending_submission_acknowledged
    (server : Form.Server) (props : Form.Props) (formTimestamp : Z) (w : Form.World)
    (c : Comment) :
  filled (Form.form w) ->
  server (Form.postSlug props) (submission props formTimestamp (Form.form w))
  = Form.Resolved c ->
  is_approved c = false ->
  authorRemembered w = true ->
  let w' := Form.submit server props formTimestamp w in
  Form.error (Form.form w') = None
  /\ Form.isSubmitting (Form.form w') = false
  /\ Form.content (Form.form w') = []
  /\ Form.localStorage w' !! Form.STORAGE_KEY_NAME
     = Some (Js.trim (Form.name (Form.form w)))
  /\ shown w w' = (None, [Form.ShowToast (Form.t "comments.awaitingApproval") Form.info])
  /\ forall server2 props2 formTimestamp2 w2 c2,
       filled (Form.form w2) ->
       server2 (Form.postSlug props2)
               (submission props2 formTimestamp2 (Form.form w2)) = Form.Resolved c2 ->
       is_approved c2 = true ->
       authorRemembered w2 = true ->
       shown w2 (Form.submit server2 props2 formTimestamp2 w2)
       = (None, [Form.ShowToast (Form.t "comments.commentAdded") Form.success])
       /\ shown w2 (Form.submit server2 props2 formTimestamp2 w2) <> shown w w'.
Proof.
  intros Hf Hs Hc Ha w'. subst w'. unfold shown.
  rewrite (submit_resolved _ _ _ _ c Hf Hs Ha), newEffects_app, Hc. simpl.
  repeat split; try done.
  - destruct (Js.truthy _); [|by rewrite lookup_insert_eq].
    rewrite lookup_insert_ne; [|done]. by rewrite lookup_insert_eq.
  - by destruct (Form.hasOnCancel props).
  - rewrite (submit_resolved _ _ _ _ c2) by done. rewrite newEffects_app, H1.
    simpl. by destruct (Form.hasOnCancel props2).
  - rewrite (submit_resolved _ _ _ _ c2) by done. rewrite newEffects_app, H1.
    simpl. by destruct (Form.hasOnCancel props2), (Form.hasOnCancel props).
Qed.

Lemma notWhiteSpace_not_blank (c : N) (s : Js.jsstring) :
  Js.isWhiteSpace c = false -> In c s -> ~ blank s.
Proof.
  intros Hc Hin Hb. unfold blank in Hb.
  rewrite List.Forall_forall in Hb. specialize (Hb c Hin). congruence.
Qed.

Lemma filledWorld_filled : filled (Form.form filledWorld).
Proof.
  split.
  - apply (notWhiteSpace_not_blank 65); [reflexivity | simpl; tauto].
  - apply (notWhiteSpace_not_blank 78); [reflexivity | simpl; tauto].
Defined.

Lemma fullStorageWorld_filled : filled (Form.form fullStorageWorld).
Proof. exact filledWorld_filled. Qed.

(** C7 fails on the code: both writes to the local storage are inside the
    [try] of [handleSubmit], before the toast.  In a browser whose storage
    takes nothing the request goes out and the server stores the comment
    unapproved, yet the submitter is shown the error line of a failed
    request and no "awaiting approval" toast, and the text stays in the
    form; what is shown is what a rejected request shows.  So it is for
    every stored comment, approved or not, whenever a write is refused. *)
Theorem C7_pending_comment_reported_as_failed :
  let w' := Form.submit (acceptAll heldComment) rootFormProps 1700000000
                        fullStorageWorld in
  is_approved heldComment = false
  /\ Form.newEffects fullStorageWorld w'
     = [Form.PreventDefault;
        Form.CreateComment "hello-world"
          (submission rootFormProps 1700000000 (Form.form fullStorageWorld))]
  /\ shown fullStorageWorld w' = (Some (Form.t "comments.error"), [])
  /\ shown fullStorageWorld w'
     = shown fullStorageWorld
             (Form.submit (rejectAll (Form.mkApiError (Some 400) None)) rootFormProps
                          1700000000 fullStorageWorld)
  /\ Form.content (Form.form w') = Form.content (Form.form fullStorageWorld)
  /\ Form.localStorage w' = Form.localStorage fullStorageWorld
  /\ forall server props formTimestamp w c,
       filled (Form.form w) ->
       server (Form.postSlug props) (submission props formTimestamp (Form.form w))
       = Form.Resolved c ->
       authorRemembered w = false ->
       shown w (Form.submit server props formTimestamp w)
       = (Some (Form.t "comments.error"), []).
Proof.
  cbv zeta.
  rewrite (submit_refused (acceptAll heldComment) rootFormProps 1700000000
             fullStorageWorld heldComment fullStorageWorld_filled eq_refl eq_refl).
  rewrite (submit_failed (rejectAll (Form.mkApiError (Some 400) None)) rootFormProps
             1700000000 fullStorageWorld (Form.mkApiError (Some 400) None)
             fullStorageWorld_filled eq_refl).
  unfold shown. rewrite !newEffects_app.
  repeat split.
  intros server props formTimestamp w c Hf Hs Ha.
  by rewrite (submit_refused _ _ _ _ c Hf Hs Ha), newEffects_app.
Qed.

(** C8: two submissions the server turned down, for whatever reasons it
    had and whatever it put into its answers, show the submitter the same
    thing: the one generic error line and no toast. *)
Theorem C8_rejections_look_alike
    (server1 server2 : Form.Server) (props1 props2 : Form.Props)
    (formTimestamp1 formTimestamp2 : Z) (w1 w2 : Form.World) (e1 e2 : Form.ApiError) :
  filled (Form.form w1) ->
  filled (Form.form w2) ->
  server1 (Form.postSlug props1) (submission props1 formTimestamp1 (Form.form w1))
  = Form.Failed e1 ->
  server2 (Form.postSlug props2) (submission props2 formTimestamp2 (Form.form w2))
  = Form.Failed e2 ->
  shown w1 (Form.submit server1 props1 formTimestamp1 w1)
  = shown w2 (Form.submit server2 props2 formTimestamp2 w2)
  /\ shown w1 (Form.submit server1 props1 formTimestamp1 w1)
     = (Some (Form.t "comments.error"), [])
  /\ Form.isSubmitting (Form.form (Form.submit server1 props1 formTimestamp1 w1)) = false
  /\ Form.localStorage (Form.submit server1 props1 formTimestamp1 w1)
     = Form.localStorage w1.
Proof.
  intros Hf1 Hf2 Hs1 Hs2. unfold shown.
  rewrite (submit_failed _ _ _ _ e1 Hf1 Hs1), (submit_failed _ _ _ _ e2 Hf2 Hs2).
  by rewrite !newEffects_app.
Qed.

Lemma honeypotWorld_filled : filled (Form.form honeypotWorld).
Proof.
  split.
  - apply (notWhiteSpace_not_blank 66); [reflexivity | simpl; tauto].
  - apply (notWhiteSpace_not_blank 66); [reflexivity | simpl; tauto].
Defined.

Lemma C8_witness :
  shown honeypotWorld
        (Form.submit (rejectAll (Form.mkApiError (Some 400) (Some "Invalid submission")))
                     rootFormProps 1700000000 honeypotWorld)
  = shown filledWorld
          (Form.submit (rejectAll (Form.mkApiError (Some 429) (Some "Too many comments")))
                       rootFormProps 1700000100 filledWorld).
Proof.
  apply (C8_rejections_look_alike
           (rejectAll (Form.mkApiError (Some 400) (Some "Invalid submission")))
           (rejectAll (Form.mkApiError (Some 429) (Some "Too many comments")))
           rootFormProps rootFormProps 1700000000 1700000100
           honeypotWorld filledWorld
           (Form.mkApiError (Some 400) (Some "Invalid submission"))
           (Form.mkApiError (Some 429) (Some "Too many comments"))).
  - exact honeypotWorld_filled.
  - exact filledWorld_filled.
  - reflexivity.
  - reflexivity.
Defined.

(** Whatever the form holds and whatever the server answers, a submission
    sends at most the one request built from the form and its props. *)
Lemma submit_requests (server : Form.Server) (props : Form.Props) (formTimestamp : Z)
    (w : Form.World) (slug : string) (data : CommentCreate.t) :
  In (Form.CreateComment slug data)
     (Form.newEffects w (Form.submit server props formTimestamp w)) ->
  slug = Form.postSlug props /\ data = submission props formTimestamp (Form.form w).
Proof.
  destruct (decide (blank (Form.name (Form.form w))
                    \/ blank (Form.content (Form.form w)))) as [Hb|Hf].
  - rewrite (submit_blank _ _ _ _ Hb), newEffects_app. simpl.
    intros [H|[]]. discriminate.
  - assert (Hfilled : filled (Form.form w)) by (unfold filled; tauto).
    destruct (server (Form.postSlug props)
                     (submission props formTimestamp (Form.form w))) as [c|e] eqn:Hs.
    + destruct (authorRemembered w) eqn:Ha.
      * rewrite (submit_resolved _ _ _ _ c Hfilled Hs Ha), newEffects_app.
        simpl. intros [H|[H|H]]; [discriminate | by inversion H |].
        apply in_app_or in H as [H|H].
        -- destruct (is_approved c); simpl in H; intuition discriminate.
        -- destruct (Form.hasOnCancel props); simpl in H; intuition discriminate.
      * rewrite (submit_refused _ _ _ _ c Hfilled Hs Ha), newEffects_app.
        simpl. intros [H|[H|[]]]; [discriminate | by inversion H].
    + rewrite (submit_failed _ _ _ _ e Hfilled Hs), newEffects_app.
      simpl. intros [H|[H|[]]]; [discriminate | by inversion H].
Qed.

(** ** The comment thread *)

Section ThreadFacts.
Import Thread.

Variable admin : bool.
Variable opened : gset (list Z).
Variable postSlug : string.

Lemma instanceOk_up (parent : list Z) (i : Z) (d : nat) (v : View) :
  instanceOk admin opened postSlug (parent ++ [i]) (d + 1) v ->
  instanceOk admin opened postSlug parent d v.
Proof.
  unfold instanceOk. rewrite length_app. simpl.
  intros (Hd & Hk & Ha & Hf). repeat split; [lia | lia | done | done].
Qed.

Lemma CommentThread_instances (c : Comment) :
  forall parent d,
    Forall (instanceOk admin opened postSlug parent d)
           (instancesOf (CommentThread admin opened postSlug parent d c)).
Proof.
  induction c as [c IH] using Comment_ind. intros parent d.
  destruct c as [i ? ? ? ? ? ? ? ? rs]. simpl in *. constructor.
  - unfold instanceOk. simpl. rewrite length_app. simpl.
    repeat split; [lia | lia].
  - induction IH as [|r rs' Hr _ IHrs]; simpl; [constructor|].
    apply Forall_app. split; [|exact IHrs].
    eapply Forall_impl; [apply Hr|]. intros v. apply instanceOk_up.
Qed.

Lemma threads_instances (cs : list Comment) :
  Forall (instanceOk admin opened postSlug [] 0)
         (instances (threads (Comments admin opened postSlug cs))).
Proof.
  unfold instances. simpl.
  induction cs as [|c cs IH]; simpl; [constructor|].
  apply Forall_app. split; [apply CommentThread_instances | exact IH].
Qed.

Lemma CommentThread_placed (c : Comment) :
  forall parent d level,
    placedFrom level (CommentThread admin opened postSlug parent d c)
    = depthsFrom level c.
Proof.
  induction c as [c IH] using Comment_ind. intros parent d level.
  destruct c as [i ? ? ? ? ? ? ? ? rs]. simpl in *. f_equal.
  induction IH as [|r rs' Hr _ IHrs]; simpl; [done|].
  by rewrite Hr, IHrs.
Qed.

Lemma CommentThread_depths (c : Comment) :
  forall parent d,
    map (fun v => (comment v, depth v))
        (instancesOf (CommentThread admin opened postSlug parent d c))
    = depthsFrom d c.
Proof.
  induction c as [c IH] using Comment_ind. intros parent d.
  destruct c as [i ? ? ? ? ? ? ? ? rs]. simpl in *. f_equal.
  induction IH as [|r rs' Hr _ IHrs]; simpl; [done|].
  rewrite map_app, Hr, IHrs. by replace (d + 1)%nat with (S d) by lia.
Qed.

Lemma threads_placed (cs : list Comment) :
  placed (threads (Comments admin opened postSlug cs)) = treeDepths cs.
Proof.
  unfold placed, treeDepths. simpl.
  induction cs as [|c cs IH]; simpl; [done|].
  by rewrite CommentThread_placed, IH.
Qed.

Lemma threads_depths (cs : list Comment) :
  map (fun v => (comment v, depth v))
      (instances (threads (Comments admin opened postSlug cs)))
  = treeDepths cs.
Proof.
  unfold instances, treeDepths. simpl.
  induction cs as [|c cs IH]; simpl; [done|].
  by rewrite map_app, CommentThread_depths, IH.
Qed.

End ThreadFacts.

(** C2, as stated, fails: the comment five levels below the root of
    [deepChain] is rendered five levels deep, not at the cap of four. *)
Lemma C2_counterexample :
  ~ (forall (postSlug : string) (p : Thread.Page) (c : Comment) (d : nat),
        In (c, d) (treeDepths (Thread.comments p)) ->
        (Thread.maxDepth < d)%nat ->
        In (id c, Thread.maxDepth)
           (idsPlaced (Thread.placed (Thread.threads (Thread.render postSlug p))))).
Proof.
  intros H.
  assert (Hin : In (replyTo 5 [], 5%nat)
                   (treeDepths (Thread.comments (Thread.initial deepChain false)))).
  { vm_compute. do 5 right. by left. }
  apply (H "hello-world") in Hin; [|unfold Thread.maxDepth; lia].
  vm_compute in Hin. intuition congruence.
Qed.

(** C2, amended: every comment of the tree, however deep, is on the page
    (none is dropped), and it is there at its own depth: once per node, parent
    before replies, nested one level below its parent, with a [depth] prop
    equal to that level.  Nothing is moved up to the cap. *)
Theorem C2_every_comment_rendered_at_its_own_depth
    (postSlug : string) (p : Thread.Page) :
  Thread.placed (Thread.threads (Thread.render postSlug p))
  = treeDepths (Thread.comments p)
  /\ map (fun v => (Thread.comment v, Thread.depth v))
         (Thread.instances (Thread.threads (Thread.render postSlug p)))
     = treeDepths (Thread.comments p)
  /\ map Thread.comment (Thread.instances (Thread.threads (Thread.render postSlug p)))
     = allNodes (Thread.comments p).
Proof.
  unfold Thread.render.
  repeat split; [apply threads_placed | apply threads_depths |].
  rewrite <- treeDepths_nodes, <- (threads_depths (Thread.admin p) (Thread.opened p) postSlug).
  by rewrite map_map.
Qed.

(** *** Reply forms are open only where the reply button is *)

Section PageFacts.
Import Thread.
Variable postSlug : string.

Lemma instances_ok (p : Page) (v : View) :
  In v (instances (threads (render postSlug p))) ->
  instanceOk (admin p) (opened p) postSlug [] 0 v.
Proof.
  intros Hin. unfold render in Hin.
  pose proof (threads_instances (admin p) (opened p) postSlug (comments p)) as H.
  rewrite List.Forall_forall in H. by apply H.
Qed.

Lemma find_instance (p : Page) (k : list Z) (v : View) :
  find postSlug p k = Some v ->
  In v (instances (threads (render postSlug p))) /\ key v = k.
Proof.
  unfold find. intros H. apply find_some in H as [Hin Hk].
  split; [done|]. by apply bool_decide_eq_true in Hk.
Qed.

Lemma find_is_Some (p : Page) (v : View) :
  In v (instances (threads (render postSlug p))) ->
  exists v', find postSlug p (key v) = Some v'.
Proof.
  intros Hin. unfold find.
  destruct (List.find _ _) as [v'|] eqn:Hf; [by exists v'|].
  exfalso. pose proof (find_none _ _ Hf v Hin) as Hn. simpl in Hn.
  apply bool_decide_eq_false in Hn. by apply Hn.
Qed.

Lemma step_opened_above_cap (p p' : Page) (e : Event) :
  opened_above_cap p -> step postSlug p e = Some p' -> opened_above_cap p'.
Proof.
  intros Hinv Hstep k. destruct e as [k0|k0|k0|cs|b]; simpl in Hstep.
  - destruct (find postSlug p k0) as [v|] eqn:Hf; simpl in Hstep; [|done].
    destruct (actions v) as [a|] eqn:Ha; simpl in Hstep; [|done].
    inversion Hstep; subst; clear Hstep. simpl.
    apply find_instance in Hf as [Hin Hk].
    apply instances_ok in Hin as (_ & Hlen & Hact & _).
    rewrite Ha in Hact. simpl in Hlen.
    destruct (depth v <? maxDepth)%nat eqn:Hd; [|done].
    apply Nat.ltb_lt in Hd. subst k0.
    clear Hact. unfold toggle.
    destruct (bool_decide (key v ∈ opened p)); intros Hk'.
    + apply elem_of_difference in Hk' as [Hk' _]. by apply Hinv.
    + apply elem_of_union in Hk' as [Hk'|Hk']; [by apply Hinv|].
      apply elem_of_singleton in Hk'. subst k. lia.
  - destruct (find postSlug p k0) as [v|] eqn:Hf; simpl in Hstep; [|done].
    destruct (replyForm v); simpl in Hstep; [|done].
    inversion Hstep; subst; clear Hstep. simpl.
    intros Hk'. apply elem_of_difference in Hk' as [Hk' _]. by apply Hinv.
  - destruct (find postSlug p k0) as [v|] eqn:Hf; simpl in Hstep; [|done].
    destruct (actions v) as [a|]; simpl in Hstep; [|done].
    destruct (deleteButton a); [|done].
    inversion Hstep; subst; clear Hstep. simpl. apply Hinv.
  - inversion Hstep; subst; clear Hstep. simpl.
    intros Hk'. apply elem_of_filter in Hk' as [_ Hk']. by apply Hinv.
  - inversion Hstep; subst; clear Hstep. simpl. apply Hinv.
Qed.

Lemma run_opened_above_cap (es : list Event) :
  forall p p', opened_above_cap p -> run postSlug p es = Some p' ->
               opened_above_cap p'.
Proof.
  induction es as [|e es IH]; intros p p' Hinv Hrun; simpl in Hrun.
  - by inversion Hrun; subst.
  - destruct (step postSlug p e) as [p1|] eqn:Hstep; simpl in Hrun; [|done].
    eapply IH; [|exact Hrun]. eapply step_opened_above_cap; eauto.
Qed.

Lemma initial_opened_above_cap (cs : list Comment) (ad : bool) :
  opened_above_cap (initial cs ad).
Proof. intros k Hk. simpl in Hk. set_solver. Qed.

End PageFacts.

(** C10: on every page the visitor can reach, an instance shows its comment
    at the comment's depth in the tree; the reply and delete buttons are on
    instances of depth below four only; a reply form is open only for a
    comment of depth at most three, and the one request it can send names
    that comment as the parent, so the reply sits at depth at most four; for
    a comment at depth four or more there is no button, no form, and the
    clicks are not possible. *)
Theorem C10_reply_and_delete_only_above_the_cap
    (postSlug : string) (comments : list Comment) (admin : bool)
    (es : list Thread.Event) (p : Thread.Page) (v : Thread.View) :
  Thread.run postSlug (Thread.initial comments admin) es = Some p ->
  In v (Thread.instances (Thread.threads (Thread.render postSlug p))) ->
  In (Thread.comment v, Thread.depth v) (treeDepths (Thread.comments p))
  /\ (forall a, Thread.actions v = Some a ->
             (Thread.depth v < 4)%nat /\ Thread.deleteButton a = Thread.admin p)
  /\ (forall props,
         Thread.replyForm v = Some props ->
         (Thread.depth v <= 3)%nat
         /\ (Thread.depth v + 1 <= 4)%nat
         /\ Form.parentId props = Some (id (Thread.comment v))
         /\ forall server formTimestamp w slug data,
              In (Form.CreateComment slug data)
                 (Form.newEffects w (Form.submit server props formTimestamp w)) ->
              CommentCreate.parent_id data = Some (id (Thread.comment v)))
  /\ ((4 <= Thread.depth v)%nat ->
      Thread.actions v = None
      /\ Thread.replyForm v = None
      /\ Thread.step postSlug p (Thread.ClickReply (Thread.key v)) = None
      /\ Thread.step postSlug p (Thread.ClickDelete (Thread.key v)) = None
      /\ Thread.step postSlug p (Thread.CloseForm (Thread.key v)) = None).
Proof.
  intros Hrun Hin.
  assert (Hinv : opened_above_cap p).
  { eapply run_opened_above_cap; [|exact Hrun]. apply initial_opened_above_cap. }
  pose proof (instances_ok postSlug p v Hin) as (_ & Hlen & Hact & Hform).
  simpl in Hlen.
  assert (Hopen : Thread.key v ∈ Thread.opened p -> (Thread.depth v <= 3)%nat).
  { intros Hk. apply Hinv in Hk. unfold Thread.maxDepth in Hk. lia. }
  split; [|split; [|split]].
  - rewrite <- (threads_depths (Thread.admin p) (Thread.opened p) postSlug).
    apply (in_map (fun v => (Thread.comment v, Thread.depth v))). exact Hin.
  - intros a Ha. rewrite Ha in Hact.
    destruct (Thread.depth v <? Thread.maxDepth)%nat eqn:Hd; [|done].
    apply Nat.ltb_lt in Hd. unfold Thread.maxDepth in Hd.
    split; [lia|]. by inversion Hact.
  - intros props Hp. rewrite Hp in Hform.
    destruct (bool_decide (Thread.key v ∈ Thread.opened p)) eqn:Hk; [|done].
    apply bool_decide_eq_true in Hk. specialize (Hopen Hk).
    inversion Hform; subst props; clear Hform. simpl.
    repeat split; [lia | lia |].
    intros server ts w slug data Hreq.
    apply submit_requests in Hreq as [_ ->]. reflexivity.
  - intros Hdeep.
    assert (Hnone : forall v', In v' (Thread.instances
                                        (Thread.threads (Thread.render postSlug p))) ->
                               Thread.key v' = Thread.key v ->
                               Thread.actions v' = None /\ Thread.replyForm v' = None).
    { intros v' Hin' Hkey.
      pose proof (instances_ok postSlug p v' Hin') as (_ & Hlen' & Hact' & Hform').
      simpl in Hlen'. rewrite Hkey in Hlen', Hform'.
      assert (Hd' : (Thread.depth v' <? Thread.maxDepth)%nat = false).
      { apply Nat.ltb_ge. unfold Thread.maxDepth. lia. }
      rewrite Hd' in Hact'. split; [done|].
      destruct (bool_decide (Thread.key v ∈ Thread.opened p)) eqn:Hk; [|done].
      apply bool_decide_eq_true in Hk. specialize (Hopen Hk). lia. }
    destruct (Hnone v Hin eq_refl) as [Ha Hf].
    repeat split; [done | done | | | ]; simpl;
      destruct (Thread.find postSlug p (Thread.key v)) as [v'|] eqn:Hfind;
      simpl; try done;
      apply find_instance in Hfind as [Hin' Hkey];
      destruct (Hnone v' Hin' Hkey) as [Ha' Hf']; by rewrite ?Ha', ?Hf'.
Qed.

Lemma C10_witness :
  Thread.run "hello-world" (Thread.initial deepChain false)
             [Thread.ClickReply [0; 1; 2; 3]] = Some replyOpened
  /\ Thread.replyForm replyOpenedInstance
     = Some (Form.mkProps "hello-world" (Some 3) true true)
  /\ (Thread.depth replyOpenedInstance <= 3)%nat.
Proof.
  assert (H1 : Thread.run "hello-world" (Thread.initial deepChain false)
                          [Thread.ClickReply [0; 1; 2; 3]] = Some replyOpened)
    by (vm_compute; reflexivity).
  assert (H2 : In replyOpenedInstance
                  (Thread.instances
                     (Thread.threads (Thread.render "hello-world" replyOpened))))
    by (vm_compute; do 3 right; left; reflexivity).
  assert (H3 : Thread.replyForm replyOpenedInstance
               = Some (Form.mkProps "hello-world" (Some 3) true true))
    by (vm_compute; reflexivity).
  split; [exact H1|]. split; [exact H3|].
  exact (proj1 (proj1 (proj2 (proj2 (C10_reply_and_delete_only_above_the_cap
                                       "hello-world" deepChain false
                                       [Thread.ClickReply [0; 1; 2; 3]]
                                       replyOpened replyOpenedInstance H1 H2)))
                      _ H3)).
Defined.

(** ** The moderation table *)

Section AdminFacts.
Import Admin.

Lemma step_commentStatus (rows : list Comment) (s s' : State) (e : Event) :
  In (commentStatus s) statusOptions ->
  step rows s e = Some s' ->
  In (commentStatus s') statusOptions.
Proof.
  intros Hs Hstep. destruct e as [value| | |a row]; simpl in Hstep.
  - case_bool_decide as Hv; [|done]. inversion Hstep; subst s'.
    apply list_elem_of_In in Hv. exact Hv.
  - destruct (_ && _); [|done]. by inversion Hstep; subst.
  - destruct (_ && _); [|done]. by inversion Hstep; subst.
  - destruct (rows !! row) as [c|]; simpl in Hstep; [|done].
    case_bool_decide; [|done]. by inversion Hstep; subst.
Qed.

Lemma run_commentStatus (es : list (list Comment * Event)) :
  forall s s', In (commentStatus s) statusOptions ->
               run s es = Some s' ->
               In (commentStatus s') statusOptions.
Proof.
  induction es as [|[rows e] es IH]; intros s s' Hs Hrun; simpl in Hrun.
  - by inversion Hrun; subst.
  - destruct (step rows s e) as [s1|] eqn:Hstep; simpl in Hrun; [|done].
    eapply IH; [|exact Hrun]. eapply step_commentStatus; eauto.
Qed.

Lemma rowActions_cases (c : Comment) :
  rowActions c = if is_approved c then [Reject; Delete] else [Approve; Delete].
Proof. unfold rowActions. by destruct (is_approved c). Qed.

End AdminFacts.

(** C5: throughout a session on the comments tab the status filter of the
    listing request is one of [all], [pending], [approved]: these are the
    options of the select, each can be chosen, nothing else can, and
    [rejected] is not among them. *)
Theorem C5_status_filter_is_all_pending_or_approved
    (es : list (list Comment * Admin.Event)) (s : Admin.State) :
  Admin.run Admin.initialState es = Some s ->
  (Admin.commentStatus s = "all" \/ Admin.commentStatus s = "pending"
   \/ Admin.commentStatus s = "approved")
  /\ Admin.commentStatus s <> "rejected"
  /\ Api.query (Admin.listingRequest s)
     = [("page", Api.numberToString (Admin.commentsPage s));
        ("per_page", "10"); ("status", Admin.commentStatus s)]
  /\ (forall rows value,
        In value ["all"; "pending"; "approved"] <->
        exists s', Admin.step rows s (Admin.SelectStatus value) = Some s'
                   /\ Admin.commentStatus s' = value)
  /\ (forall rows, Admin.step rows s (Admin.SelectStatus "rejected") = None).
Proof.
  intros Hrun.
  assert (Hs : In (Admin.commentStatus s) Admin.statusOptions).
  { eapply run_commentStatus; [|exact Hrun]. simpl. tauto. }
  assert (H3 : Admin.commentStatus s = "all" \/ Admin.commentStatus s = "pending"
               \/ Admin.commentStatus s = "approved").
  { simpl in Hs. intuition. }
  split; [exact H3|]. split; [|split; [|split]].
  - destruct H3 as [-> | [-> | ->]]; discriminate.
  - unfold Admin.listingRequest, Api.getAllComments.
    destruct H3 as [-> | [-> | ->]]; reflexivity.
  - intros rows value. simpl. split.
    + intros Hv. case_bool_decide as Hd.
      * eexists. split; reflexivity.
      * exfalso. apply Hd. apply list_elem_of_In. exact Hv.
    + intros (s' & Hstep & _). case_bool_decide as Hd; [|done].
      by apply list_elem_of_In in Hd.
  - intros rows. reflexivity.
Qed.

(** The moderator picks "pending" and goes to the second page. *)
Lemma C5_witness :
  Api.query (Admin.listingRequest (Admin.mkState 2 "pending" []))
  = [("page", "2"); ("per_page", "10"); ("status", "pending")]
  /\ Admin.step [] (Admin.mkState 2 "pending" []) (Admin.SelectStatus "rejected") = None.
Proof.
  pose proof (C5_status_filter_is_all_pending_or_approved
                [([], Admin.SelectStatus "pending");
                 (replicate 10 heldComment, Admin.NextPage)]
                (Admin.mkState 2 "pending" []) eq_refl) as (_ & _ & Hq & _ & Hr).
  split; [exact Hq | exact (Hr [])].
Defined.

(** C3, as stated, fails: the comment model has two moderation values, not
    three.  No reading of [is_approved] yields all of [Pending], [Approved],
    [Rejected]; a rejected comment is the very value a pending one is, with
    the badge "pending". *)
Lemma C3_counterexample :
  ~ (exists status_of : Comment -> Moderation.Status,
        readsModerationData status_of
        /\ forall s, exists c, status_of c = s)
  /\ Moderation.inState Moderation.Rejected rejectedComment
  /\ Moderation.inState Moderation.Pending rejectedComment
  /\ rejectedComment = heldComment
  /\ Admin.statusBadge rejectedComment
     = ("status-badge draft", "admin.comments.pending").
Proof.
  split; [|repeat split].
  intros (status_of & Hreads & Hall).
  destruct (Hall Moderation.Pending) as [c1 H1].
  destruct (Hall Moderation.Approved) as [c2 H2].
  destruct (Hall Moderation.Rejected) as [c3 H3].
  destruct (is_approved c1) eqn:E1, (is_approved c2) eqn:E2, (is_approved c3) eqn:E3;
    first [ assert (Heq := Hreads c1 c2 (eq_trans E1 (eq_sym E2))); congruence
          | assert (Heq := Hreads c1 c3 (eq_trans E1 (eq_sym E3))); congruence
          | assert (Heq := Hreads c2 c3 (eq_trans E2 (eq_sym E3))); congruence ].
Qed.

(** C3, amended: the moderation status a comment carries is one of exactly
    two values, approved or not; the table shows one of two badges,
    "approved" or "pending", both occur, and two comments get the same badge
    and the same buttons exactly when they agree on [is_approved].  A rejected
    comment is carried and shown as a pending one. *)
Theorem C3_status_is_two_valued :
  (forall c, Admin.statusBadge c
             = (if is_approved c
                then ("status-badge published", "admin.comments.approved")
                else ("status-badge draft", "admin.comments.pending")))
  /\ (forall c c',
        is_approved c = is_approved c' <->
        (Admin.statusBadge c, Admin.rowActions c)
        = (Admin.statusBadge c', Admin.rowActions c'))
  /\ (exists c c', Admin.statusBadge c <> Admin.statusBadge c')
  /\ (forall c, Moderation.inState Moderation.Rejected c
                <-> Moderation.inState Moderation.Pending c)
  /\ (forall c, Moderation.inState Moderation.Approved c <-> is_approved c = true).
Proof.
  split; [|split; [|split; [|split]]].
  - intros c. unfold Admin.statusBadge. by destruct (is_approved c).
  - intros c c'. unfold Admin.statusBadge. rewrite !rowActions_cases. split.
    + by intros ->.
    + destruct (is_approved c), (is_approved c'); simpl; congruence.
  - exists heldComment, (replyTo 0 []). discriminate.
  - intros c. reflexivity.
  - intros c. reflexivity.
Qed.

(** C4, as stated, fails: the row of a rejected comment has the approve
    button, and pressing it sends the approve request for that comment. *)
Lemma C4_counterexample :
  ~ (forall c, Moderation.inState Moderation.Rejected c ->
               ~ In Admin.Approve (Admin.rowActions c))
  /\ Admin.rowActions rejectedComment = [Admin.Approve; Admin.Delete]
  /\ Admin.sent <$> Admin.step [rejectedComment] Admin.initialState
                               (Admin.Press Admin.Approve 0)
     = Some [Api.mkRequest Api.PUT "/api/comments/7/approve" []].
Proof.
  split; [|repeat split].
  intros H. apply (H rejectedComment); [reflexivity | simpl; tauto].
Qed.

(** C4, amended: the approve action is offered for exactly the comments that
    are not approved, the reject action for exactly the approved ones, and
    delete for all; so a rejected comment, which is not approved, is offered
    approve (and not reject), and pressing it sends the approve request for
    that comment. *)
Theorem C4_approve_offered_for_every_unapproved_comment :
  (forall c, In Admin.Approve (Admin.rowActions c) <-> is_approved c = false)
  /\ (forall c, In Admin.Reject (Admin.rowActions c) <-> is_approved c = true)
  /\ (forall c, In Admin.Delete (Admin.rowActions c))
  /\ (forall c, Moderation.inState Moderation.Rejected c ->
                In Admin.Approve (Admin.rowActions c)
                /\ ~ In Admin.Reject (Admin.rowActions c))
  /\ (forall rows s row c,
        rows !! row = Some c ->
        is_approved c = false ->
        Admin.step rows s (Admin.Press Admin.Approve row)
        = Some (Admin.mkState (Admin.commentsPage s) (Admin.commentStatus s)
                              (Admin.sent s ++ [Api.approveComment (id c)]))
        /\ Admin.step rows s (Admin.Press Admin.Reject row) = None).
Proof.
  split; [|split; [|split; [|split]]].
  - intros c. rewrite rowActions_cases.
    destruct (is_approved c); simpl; intuition congruence.
  - intros c. rewrite rowActions_cases.
    destruct (is_approved c); simpl; intuition congruence.
  - intros c. rewrite rowActions_cases. destruct (is_approved c); simpl; tauto.
  - intros c Hc. unfold Moderation.inState in Hc. simpl in Hc.
    rewrite rowActions_cases, Hc. simpl. intuition congruence.
  - intros rows s row c Hrow Hc. simpl. rewrite Hrow. simpl.
    rewrite rowActions_cases, Hc. split; reflexivity.
Qed.

Lemma C4_witness :
  In Admin.Approve (Admin.rowActions rejectedComment)
  /\ Admin.step [rejectedComment] Admin.initialState (Admin.Press Admin.Reject 0) = None.
Proof.
  destruct C4_approve_offered_for_every_unapproved_comment
    as (_ & _ & _ & Hrej & Hstep).
  split.
  - exact (proj1 (Hrej rejectedComment eq_refl)).
  - exact (proj2 (Hstep [rejectedComment] Admin.initialState 0%nat rejectedComment
                        eq_refl eq_refl)).
Defined.

(** ** The rate limiter *)

Section RateLimiterFacts.
Import RateLimiter.

Variable limit : nat.
Variable window : Z.
Hypothesis window_nonneg : 0 <= window.

Lemma filter_length_mono (P Q : Z -> Prop) `{!forall t, Decision (P t)}
    `{!forall t, Decision (Q t)} (l : list Z) :
  (forall t, P t -> Q t) -> (length (filter P l) <= length (filter Q l))%nat.
Proof.
  intros HPQ. induction l as [|t l IH]; [done|].
  rewrite !filter_cons.
  destruct (decide (P t)) as [Hp|Hp], (decide (Q t)) as [Hq|Hq]; simpl; try lia.
  exfalso. by apply Hq, HPQ.
Qed.

Lemma filter_filter_weaker (P Q : Z -> Prop) `{!forall t, Decision (P t)}
    `{!forall t, Decision (Q t)} (l : list Z) :
  (forall t, P t -> Q t) -> filter P (filter Q l) = filter P l.
Proof.
  intros HPQ. induction l as [|t l IH]; [done|].
  rewrite !filter_cons.
  destruct (decide (Q t)) as [Hq|Hq].
  - rewrite filter_cons. destruct (decide (P t)); by rewrite IH.
  - destruct (decide (P t)) as [Hp|Hp]; [|done]. exfalso. by apply Hq, HPQ.
Qed.

Lemma prune_later (earlier now : Z) (times : list Z) :
  earlier <= now ->
  prune window now (filter (fun t => earlier - window <= t) times)
  = filter (fun t => now - window <= t) times.
Proof.
  intros Hle. unfold prune. apply filter_filter_weaker. intros t. lia.
Qed.

Lemma allowedTimes_app (key : string) (h1 h2 : list (string * Z * bool)) :
  allowedTimes key (h1 ++ h2) = allowedTimes key h1 ++ allowedTimes key h2.
Proof. unfold allowedTimes. apply omap_app. Qed.

Lemma allowedTimes_one (key k : string) (now : Z) (allowed : bool) :
  allowedTimes key [(k, now, allowed)]
  = if bool_decide (k = key) && allowed then [now] else [].
Proof. unfold allowedTimes. simpl. by destruct (bool_decide (k = key) && allowed). Qed.

Lemma sweep_lookup (now : Z) (store : gmap string (list Z)) (key : string) :
  default [] (sweep window now store !! key)
  = prune window now (default [] (store !! key)).
Proof.
  unfold sweep. rewrite map_lookup_filter, lookup_fmap.
  destruct (store !! key) as [times|]; simpl; [|done].
  by destruct (prune window now times).
Qed.

Lemma tracks_later (hist : list (string * Z * bool)) (store : gmap string (list Z))
    (T T' : Z) :
  T <= T' -> tracks window hist store T -> tracks window hist store T'.
Proof.
  intros Hle Ht key. destruct (Ht key) as (Tk & HTk & Heq).
  exists Tk. split; [lia | done].
Qed.

Lemma tracks_sweep (hist : list (string * Z * bool)) (store : gmap string (list Z))
    (T now : Z) :
  T <= now -> tracks window hist store T -> tracks window hist (sweep window now store) now.
Proof.
  intros Hle Ht key. destruct (Ht key) as (Tk & HTk & Heq).
  exists now. split; [lia|].
  rewrite sweep_lookup, Heq. apply prune_later. lia.
Qed.

Lemma tracks_call (hist : list (string * Z * bool)) (store : gmap string (list Z))
    (T now : Z) (key : string) :
  T <= now -> tracks window hist store T ->
  tracks window (hist ++ [(key, now, (tryConsume key limit window now store).1)])
         (tryConsume key limit window now store).2 now.
Proof.
  intros Hle Ht k. destruct (Ht k) as (Tk & HTk & Heq).
  destruct (Ht key) as (Tkey & HTkey & Heqkey).
  rewrite allowedTimes_app, allowedTimes_one. unfold tryConsume.
  rewrite Heqkey, prune_later by lia.
  destruct (decide (key = k)) as [->|Hne].
  - exists now. split; [lia|]. rewrite bool_decide_eq_true_2 by done. simpl.
    destruct (length _ <? limit)%nat; simpl; rewrite lookup_insert_eq; simpl.
    + rewrite filter_app. f_equal.
      rewrite filter_cons. destruct (decide (now - window <= now)); [done|lia].
    + by rewrite app_nil_r.
  - exists Tk. split; [lia|]. rewrite bool_decide_eq_false_2 by done. simpl.
    rewrite app_nil_r, <- Heq.
    destruct (length _ <? limit)%nat; simpl; by rewrite lookup_insert_ne.
Qed.

Lemma bounded_call (hist : list (string * Z * bool)) (store : gmap string (list Z))
    (T now : Z) (key : string) :
  T <= now -> tracks window hist store T -> bounded limit window hist ->
  bounded limit window (hist ++ [(key, now, (tryConsume key limit window now store).1)]).
Proof.
  intros Hle Ht Hb k from. unfold allowedWithin.
  rewrite allowedTimes_app, allowedTimes_one, filter_app, length_app.
  specialize (Hb k from). unfold allowedWithin in Hb.
  destruct (decide (key = k)) as [->|Hne];
    [|rewrite bool_decide_eq_false_2 by done; simpl; lia].
  rewrite bool_decide_eq_true_2 by done. simpl.
  destruct (Ht k) as (Tk & HTk & Heq).
  unfold tryConsume. rewrite Heq, prune_later by lia.
  destruct (length _ <? limit)%nat eqn:Hlen; simpl; [|lia].
  apply Nat.ltb_lt in Hlen.
  rewrite filter_cons. destruct (decide (from <= now <= from + window)); simpl; [|lia].
  pose proof (filter_length_mono (fun t => from <= t <= from + window)
                                 (fun t => now - window <= t)
                                 (allowedTimes k hist)) as Hmono.
  assert (forall t, from <= t <= from + window -> now - window <= t) as Himp
      by (intros t; lia).
  specialize (Hmono Himp). lia.
Qed.

Lemma run_bounded (es : list Event) :
  forall store hist T,
    tracks window hist store T -> bounded limit window hist -> chronological T es = true ->
    bounded limit window (hist ++ (run limit window store es).1).
Proof.
  induction es as [|[key now|now] es IH]; intros store hist T Ht Hb Hc; simpl in *.
  - by rewrite app_nil_r.
  - apply andb_true_iff in Hc as [Hle Hc]. apply Z.leb_le in Hle.
    pose proof (tracks_call hist store T now key Hle Ht) as Ht'.
    pose proof (bounded_call hist store T now key Hle Ht Hb) as Hb'.
    destruct (tryConsume key limit window now store) as [allowed store'].
    specialize (IH store' _ now Ht' Hb' Hc).
    destruct (run limit window store' es) as [answers final]. simpl in *.
    by rewrite <- app_assoc in IH.
  - apply andb_true_iff in Hc as [Hle Hc]. apply Z.leb_le in Hle.
    apply (IH _ hist now); [|done|done]. by apply (tracks_sweep _ _ T).
Qed.

End RateLimiterFacts.

Lemma run_app (limit : nat) (window : Z) (es1 es2 : list RateLimiter.Event) :
  forall store,
    (RateLimiter.run limit window store (es1 ++ es2)).1
    = (RateLimiter.run limit window store es1).1
      ++ (RateLimiter.run limit window
            (RateLimiter.run limit window store es1).2 es2).1.
Proof.
  induction es1 as [|[key now|now] es1 IH]; intros store; simpl; [done| |].
  - destruct (RateLimiter.tryConsume key limit window now store) as [allowed store'].
    specialize (IH store').
    destruct (RateLimiter.run limit window store' (es1 ++ es2)) as [answers final].
    destruct (RateLimiter.run limit window store' es1) as [answers1 store1].
    simpl in *. by rewrite IH.
  - apply IH.
Qed.

Lemma chronological_prefix (es1 es2 : list RateLimiter.Event) :
  forall start,
    RateLimiter.chronological start (es1 ++ es2) = true ->
    RateLimiter.chronological start es1 = true.
Proof.
  induction es1 as [|e es1 IH]; intros start H; simpl in *; [done|].
  apply andb_true_iff in H as [H1 H2]. rewrite H1. simpl. by apply IH.
Qed.

Lemma at_most_limit_allowed (limit : nat) (window start : Z)
    (es : list RateLimiter.Event) (key : string) (from : Z) :
  RateLimiter.chronological start es = true ->
  (RateLimiter.allowedWithin key from window
     (RateLimiter.run limit window ∅ es).1 <= limit)%nat.
Proof.
  intros Hc. destruct (decide (0 <= window)) as [Hw|Hw].
  - apply (run_bounded limit window Hw es ∅ [] start); [| |exact Hc].
    + intros k. exists start. split; [lia|]. by rewrite lookup_empty.
    + intros k f. unfold RateLimiter.allowedWithin. simpl. lia.
  - unfold RateLimiter.allowedWithin.
    assert (Hnil : forall l : list Z,
               filter (fun t => from <= t <= from + window) l = []).
    { induction l as [|t l IH]; [done|].
      rewrite filter_cons. destruct (decide _); [lia | exact IH]. }
    rewrite Hnil. simpl. lia.
Qed.

(** C9: take the calls of all clients, on any keys and with sweeps in
    between, in the order in which the atomic steps take effect; whatever
    that order is, for every key and every interval of one window length at
    most [limit] of the key's calls in it were allowed; and a call that finds
    [limit] allowed calls of its key within the window behind it is
    refused. *)
Theorem C9_at_most_limit_allowed_per_window
    (limit : nat) (window start : Z) (es : list RateLimiter.Event) :
  RateLimiter.chronological start es = true ->
  (forall key from,
      (RateLimiter.allowedWithin key from window
         (RateLimiter.run limit window ∅ es).1 <= limit)%nat)
  /\ (forall es1 key now es2,
        es = es1 ++ RateLimiter.Call key now :: es2 ->
        0 <= window ->
        RateLimiter.allowedWithin key (now - window) window
          (RateLimiter.run limit window ∅ es1).1 = limit ->
        (RateLimiter.tryConsume key limit window now
           (RateLimiter.run limit window ∅ es1).2).1 = false).
Proof.
  intros Hc. split.
  - intros key from. by apply (at_most_limit_allowed limit window start).
  - intros es1 key now es2 -> Hw Hfull.
    destruct (RateLimiter.tryConsume key limit window now
                (RateLimiter.run limit window ∅ es1).2).1 eqn:Hans; [|done].
    exfalso.
    replace (es1 ++ RateLimiter.Call key now :: es2)
      with ((es1 ++ [RateLimiter.Call key now]) ++ es2) in Hc
      by (by rewrite <- app_assoc).
    apply chronological_prefix in Hc.
    pose proof (at_most_limit_allowed limit window start _ key (now - window) Hc)
      as Hle.
    rewrite run_app in Hle. simpl in Hle.
    destruct (RateLimiter.tryConsume key limit window now
                (RateLimiter.run limit window ∅ es1).2) as [allowed store'].
    simpl in Hans. subst allowed. simpl in Hle.
    unfold RateLimiter.allowedWithin in Hle, Hfull.
    rewrite allowedTimes_app, allowedTimes_one, filter_app, length_app in Hle.
    rewrite bool_decide_eq_true_2 in Hle by done. simpl in Hle.
    rewrite filter_cons in Hle.
    destruct (decide (now - window <= now <= now - window + window)); [|lia].
    simpl in Hle. lia.
Qed.

Lemma C9_witness :
  (RateLimiter.run 2 10 ∅ burst).1
  = [("10.0.0.1", 0, true); ("10.0.0.1", 1, true); ("10.0.0.1", 2, false);
     ("10.0.0.2", 2, true); ("10.0.0.1", 10, false); ("10.0.0.1", 11, true);
     ("10.0.0.1", 31, true)]
  /\ (RateLimiter.allowedWithin "10.0.0.1" 1 10 (RateLimiter.run 2 10 ∅ burst).1 <= 2)%nat.
Proof.
  split; [vm_compute; reflexivity|].
  apply (proj1 (C9_at_most_limit_allowed_per_window 2 10 0 burst eq_refl)
               "10.0.0.1" 1).
Defined.

(** * More properties of the code *)

(** ** Trimming *)

Lemma trimStart_app_clean (l : Js.jsstring) (c : N) :
  Js.isWhiteSpace c = false -> Js.trimStart (l ++ [c]) = Js.trimStart l ++ [c].
Proof.
  intros Hc. induction l as [|d l IH]; simpl; [by rewrite Hc|].
  by destruct (Js.isWhiteSpace d).
Qed.

Lemma trimStart_clean (c : N) (s : Js.jsstring) :
  Js.isWhiteSpace c = false -> Js.trimStart (c :: s) = c :: s.
Proof. intros Hc. simpl. by rewrite Hc. Qed.

Lemma trimStart_cases (s : Js.jsstring) :
  Js.trimStart s = []
  \/ exists c s', Js.trimStart s = c :: s' /\ Js.isWhiteSpace c = false.
Proof.
  induction s as [|c s IH]; simpl; [by left|].
  destruct (Js.isWhiteSpace c) eqn:Hc; [exact IH|]. right. by exists c, s.
Qed.

Lemma trimEnd_trimEnd (s : Js.jsstring) : Js.trimEnd (Js.trimEnd s) = Js.trimEnd s.
Proof. unfold Js.trimEnd. by rewrite rev_involutive, trimStart_idempotent. Qed.

Lemma trimStart_trim (s : Js.jsstring) : Js.trimStart (Js.trim s) = Js.trim s.
Proof.
  unfold Js.trim, Js.trimEnd.
  destruct (trimStart_cases s) as [->|(c & s' & -> & Hc)]; [done|].
  simpl. rewrite trimStart_app_clean by done.
  rewrite rev_app_distr. simpl. by rewrite Hc.
Qed.

Lemma trim_idempotent (s : Js.jsstring) : Js.trim (Js.trim s) = Js.trim s.
Proof.
  unfold Js.trim at 1. rewrite trimStart_trim.
  unfold Js.trim. apply trimEnd_trimEnd.
Qed.

Lemma trim_keeps_filled (s : Js.jsstring) : ~ blank s -> ~ blank (Js.trim s).
Proof. rewrite !trim_blank, trim_idempotent. done. Qed.

Lemma trimStart_subset (s : Js.jsstring) (c : N) : In c (Js.trimStart s) -> In c s.
Proof.
  induction s as [|d s IH]; simpl; [done|].
  destruct (Js.isWhiteSpace d); [|done]. intros H. right. by apply IH.
Qed.

Lemma trim_subset (s : Js.jsstring) (c : N) : In c (Js.trim s) -> In c s.
Proof.
  unfold Js.trim, Js.trimEnd. intros H.
  apply in_rev, trimStart_subset, in_rev in H. by apply trimStart_subset.
Qed.

Lemma trim_space_before (s : Js.jsstring) :
  Js.trim (JsText.space :: s) = Js.trim s.
Proof. reflexivity. Qed.

Lemma truthy_not_nil (s : Js.jsstring) : Js.truthy s = true <-> s <> [].
Proof. destruct s; simpl; split; congruence. Qed.

(** ** More about the comment form *)

Lemma submit_cases (server : Form.Server) (props : Form.Props) (formTimestamp : Z)
    (w : Form.World) :
  (blank (Form.name (Form.form w)) \/ blank (Form.content (Form.form w)))
  \/ (filled (Form.form w)
      /\ exists e, server (Form.postSlug props)
                          (submission props formTimestamp (Form.form w)) = Form.Failed e)
  \/ (filled (Form.form w)
      /\ exists c, server (Form.postSlug props)
                          (submission props formTimestamp (Form.form w)) = Form.Resolved c).
Proof.
  destruct (decide (blank (Form.name (Form.form w))
                    \/ blank (Form.content (Form.form w)))) as [Hb|Hf]; [by left|].
  right. assert (Hfilled : filled (Form.form w)) by (unfold filled; tauto).
  destruct (server (Form.postSlug props)
                   (submission props formTimestamp (Form.form w))) as [c|e] eqn:Hs.
  - right. split; [done|]. by exists c.
  - left. split; [done|]. by exists e.
Qed.

Lemma blank_not_filled (s : Form.State) :
  blank (Form.name s) \/ blank (Form.content s) -> ~ filled s.
Proof. unfold filled. tauto. Qed.

Lemma submit_sent_filled (server : Form.Server) (props : Form.Props) (formTimestamp : Z)
    (w : Form.World) (slug : string) (data : CommentCreate.t) :
  In (Form.CreateComment slug data)
     (Form.newEffects w (Form.submit server props formTimestamp w)) ->
  filled (Form.form w).
Proof.
  destruct (submit_cases server props formTimestamp w)
    as [Hb|[[Hf _]|[Hf _]]]; [|done|done].
  rewrite (submit_blank _ _ _ _ Hb), newEffects_app. simpl.
  intros [H|[]]. discriminate.
Qed.

(** X1: whenever the comment form sends a request, the author name and the
    content in it are trimmed and not blank, an address is either left out or
    trimmed and not empty, and parent, hidden field and slug are the form's
    own. *)
Theorem X1_sent_comment_is_trimmed_and_filled
    (server : Form.Server) (props : Form.Props) (formTimestamp : Z) (w : Form.World)
    (slug : string) (data : CommentCreate.t) :
  In (Form.CreateComment slug data)
     (Form.newEffects w (Form.submit server props formTimestamp w)) ->
  (~ blank (CommentCreate.author_name data)
   /\ Js.trim (CommentCreate.author_name data) = CommentCreate.author_name data)
  /\ (~ blank (CommentCreate.content data)
      /\ Js.trim (CommentCreate.content data) = CommentCreate.content data)
  /\ (forall address, CommentCreate.author_email data = Some address ->
                      address <> [] /\ Js.trim address = address)
  /\ CommentCreate.parent_id data = Form.parentId props
  /\ CommentCreate.honeypot data = Some (Form.honeypot (Form.form w))
  /\ CommentCreate.form_timestamp data = Some formTimestamp
  /\ slug = Form.postSlug props.
Proof.
  intros Hin. pose proof (submit_sent_filled _ _ _ _ _ _ Hin) as [Hn Hc].
  apply submit_requests in Hin as [-> ->]. simpl.
  repeat split; try (by apply trim_keeps_filled); try apply trim_idempotent.
  - unfold Js.orUndefined in H.
    destruct (Js.truthy _) eqn:Ht; [|done]. inversion H; subst.
    by apply truthy_not_nil.
  - unfold Js.orUndefined in H.
    destruct (Js.truthy _) eqn:Ht; [|done]. inversion H; subst.
    apply trim_idempotent.
Qed.

Lemma X1_witness :
  Js.trim (Js.ofString "Ann") = Js.ofString "Ann"
  /\ ~ blank (Js.ofString "Ann").
Proof.
  assert (Hin : In (Form.CreateComment "hello-world"
                      (submission rootFormProps 1700000000 (Form.form filledWorld)))
                   (Form.newEffects filledWorld
                      (Form.submit (acceptAll heldComment) rootFormProps 1700000000
                                   filledWorld)))
    by (vm_compute; right; left; reflexivity).
  destruct (X1_sent_comment_is_trimmed_and_filled _ _ _ _ _ _ Hin)
    as ((Hfilled & Htrim) & _).
  split; [exact Htrim | exact Hfilled].
Defined.

(** X2: a submission never changes the name, the address or the hidden
    field; the text is emptied only by a request that succeeded and whose
    author the browser stored; when an error is shown the text is still
    there, and the local storage is as it was unless the request succeeded,
    the name was stored and the write of the address threw; no other key of
    the local storage is ever touched. *)
Theorem X2_submission_keeps_what_was_typed
    (server : Form.Server) (props : Form.Props) (formTimestamp : Z) (w : Form.World) :
  let w' := Form.submit server props formTimestamp w in
  Form.name (Form.form w') = Form.name (Form.form w)
  /\ Form.email (Form.form w') = Form.email (Form.form w)
  /\ Form.honeypot (Form.form w') = Form.honeypot (Form.form w)
  /\ (Form.content (Form.form w') = Form.content (Form.form w)
      \/ (Form.content (Form.form w') = []
          /\ Form.error (Form.form w') = None
          /\ authorRemembered w = true
          /\ exists c, server (Form.postSlug props)
                              (submission props formTimestamp (Form.form w))
                       = Form.Resolved c))
  /\ (forall message, Form.error (Form.form w') = Some message ->
        Form.content (Form.form w') = Form.content (Form.form w)
        /\ (Form.localStorage w' = Form.localStorage w
            \/ (Form.localStorage w'
                = <[Form.STORAGE_KEY_NAME := Js.trim (Form.name (Form.form w))]>
                    (Form.localStorage w)
                /\ message = Form.t "comments.error"
                /\ nameAccepted w = true
                /\ emailAccepted w = false
                /\ exists c, server (Form.postSlug props)
                                    (submission props formTimestamp (Form.form w))
                             = Form.Resolved c)))
  /\ (forall key, key <> Form.STORAGE_KEY_NAME -> key <> Form.STORAGE_KEY_EMAIL ->
                  Form.localStorage w' !! key = Form.localStorage w !! key).
Proof.
  intros w'. subst w'.
  destruct (submit_cases server props formTimestamp w)
    as [Hb|[[Hf [e He]]|[Hf [c Hc]]]].
  - rewrite (submit_blank _ _ _ _ Hb). simpl.
    repeat split; try done; try (by left).
  - rewrite (submit_failed _ _ _ _ e Hf He). simpl.
    repeat split; try done; try (by left).
  - destruct (authorRemembered w) eqn:Ha.
    + rewrite (submit_resolved _ _ _ _ c Hf Hc Ha). simpl.
      repeat split; try done.
      * right. repeat split; try done. by exists c.
      * intros key Hn He. destruct (Js.truthy _).
        -- by rewrite !lookup_insert_ne.
        -- by rewrite lookup_insert_ne.
    + rewrite (submit_refused _ _ _ _ c Hf Hc Ha). simpl.
      repeat split; try done; try (by left).
      * destruct (nameAccepted w) eqn:Hn; [|by left].
        right. unfold authorRemembered in Ha. rewrite Hn in Ha. simpl in Ha.
        repeat split; try done; [congruence | by exists c].
      * intros key Hn He. destruct (nameAccepted w); [|done].
        by rewrite lookup_insert_ne.
Qed.

(** X3: a submission sends at most one request; it asks for the thread to
    be reloaded exactly when the request succeeded with an approved comment
    and the browser stored the author, and calls [onCancel] exactly when the
    request succeeded, the browser stored the author and the form was given
    an [onCancel].  A stored comment whose author the browser did not store
    gets neither call. *)
Theorem X3_callbacks_follow_the_outcome
    (server : Form.Server) (props : Form.Props) (formTimestamp : Z) (w : Form.World) :
  let sent := Form.newEffects w (Form.submit server props formTimestamp w) in
  (length (List.filter Form.isCreateComment sent) <= 1)%nat
  /\ (In Form.OnCommentAdded sent <->
      filled (Form.form w)
      /\ authorRemembered w = true
      /\ exists c, server (Form.postSlug props)
                          (submission props formTimestamp (Form.form w))
                   = Form.Resolved c
                   /\ is_approved c = true)
  /\ (In Form.OnCancel sent <->
      filled (Form.form w)
      /\ authorRemembered w = true
      /\ Form.hasOnCancel props = true
      /\ exists c, server (Form.postSlug props)
                          (submission props formTimestamp (Form.form w))
                   = Form.Resolved c).
Proof.
  intros sent. subst sent.
  destruct (submit_cases server props formTimestamp w)
    as [Hb|[[Hf [e He]]|[Hf [c Hc]]]].
  - rewrite (submit_blank _ _ _ _ Hb), newEffects_app. simpl.
    pose proof (blank_not_filled _ Hb). split; [lia|].
    split; (split; [intros [H'|[]]; discriminate | tauto]).
  - rewrite (submit_failed _ _ _ _ e Hf He), newEffects_app. simpl.
    split; [lia|]. split; split.
    + intros [H|[H|[]]]; discriminate.
    + intros (_ & _ & c & Hc & _). congruence.
    + intros [H|[H|[]]]; discriminate.
    + intros (_ & _ & _ & c & Hc). congruence.
  - destruct (authorRemembered w) eqn:Ha.
    + rewrite (submit_resolved _ _ _ _ c Hf Hc Ha), newEffects_app. simpl.
      assert (Hadded : filled (Form.form w)
                       /\ true = true
                       /\ (exists c0, Form.Resolved c = Form.Resolved c0
                                      /\ is_approved c0 = true)
                       <-> is_approved c = true).
      { split; [intros (_ & _ & c0 & Hc0 & Ha0); congruence|].
        intros Hap. split; [done|]. split; [done|]. by exists c. }
      assert (Hcancel : filled (Form.form w)
                        /\ true = true
                        /\ Form.hasOnCancel props = true
                        /\ (exists c0, Form.Resolved c = Form.Resolved c0)
                        <-> Form.hasOnCancel props = true).
      { split; [tauto|]. intros Hh. repeat (split; [done|]). by exists c. }
      rewrite Hc, Hadded, Hcancel.
      destruct (is_approved c), (Form.hasOnCancel props); simpl;
        (split; [lia|]); split; split;
        first [ done
              | intros _; tauto
              | intros Hin; repeat (destruct Hin as [Hin|Hin]; try discriminate);
                done ].
    + rewrite (submit_refused _ _ _ _ c Hf Hc Ha), newEffects_app. simpl.
      split; [lia|]. split; split.
      * intros [H|[H|[]]]; discriminate.
      * intros (_ & Hr & _). discriminate.
      * intros [H|[H|[]]]; discriminate.
      * intros (_ & Hr & _). discriminate.
Qed.

(** X4: after a submission the server stored, a newly mounted comment form
    starts with what the browser let the submission store: the trimmed name,
    which passes the required-field check, when the write of the name went
    through; the trimmed address when one was typed and both writes went
    through, and the address stored before otherwise; and what it would have
    started with before the submission when the write of the name threw.
    With nothing stored the form starts empty. *)
Theorem X4_stored_author_prefills_next_form
    (server : Form.Server) (props : Form.Props) (formTimestamp : Z) (w : Form.World)
    (c : Comment) :
  filled (Form.form w) ->
  server (Form.postSlug props) (submission props formTimestamp (Form.form w))
  = Form.Resolved c ->
  let next := Stored.mount (Form.localStorage (Form.submit server props formTimestamp w)) in
  (nameAccepted w = true ->
   Form.name next = Js.trim (Form.name (Form.form w)) /\ ~ blank (Form.name next))
  /\ (nameAccepted w = false -> next = Stored.mount (Form.localStorage w))
  /\ Form.email next
     = (if authorRemembered w && Js.truthy (Js.trim (Form.email (Form.form w)))
        then Js.trim (Form.email (Form.form w))
        else Form.email (Stored.mount (Form.localStorage w)))
  /\ Form.content next = []
  /\ Form.error next = None
  /\ Stored.mount ∅ = Form.initialState.
Proof.
  intros Hf Hs next. subst next.
  assert (Hname : Js.truthy (Js.trim (Form.name (Form.form w))) = true).
  { destruct Hf as [Hn _]. destruct (Js.truthy _) eqn:E; [done|].
    by apply truthy_trim in E. }
  assert (Hkeys : Form.STORAGE_KEY_EMAIL <> Form.STORAGE_KEY_NAME) by done.
  destruct (authorRemembered w) eqn:Ha.
  - rewrite (submit_resolved _ _ _ _ c Hf Hs Ha). simpl.
    apply andb_prop in Ha as [Hn He]. rewrite Hn.
    unfold Stored.mount, Stored.fromStorage. simpl.
    destruct (Js.truthy (Js.trim (Form.email (Form.form w)))) eqn:Het.
    + rewrite lookup_insert_ne by done. rewrite !lookup_insert_eq, Hname, Het.
      repeat split; try done. apply trim_keeps_filled, Hf.
    + rewrite lookup_insert_eq, Hname.
      rewrite lookup_insert_ne by done.
      repeat split; try done. apply trim_keeps_filled, Hf.
  - rewrite (submit_refused _ _ _ _ c Hf Hs Ha). simpl.
    unfold Stored.mount, Stored.fromStorage. simpl.
    destruct (nameAccepted w) eqn:Hn.
    + rewrite lookup_insert_eq, Hname. rewrite lookup_insert_ne by done.
      repeat split; try done. apply trim_keeps_filled, Hf.
    + repeat split; done.
Qed.

Lemma X4_witness :
  Form.name (Stored.mount
               (Form.localStorage
                  (Form.submit (acceptAll heldComment) rootFormProps 1700000000
                               filledWorld)))
  = Js.ofString "Ann".
Proof.
  exact (proj1 (proj1 (X4_stored_author_prefills_next_form
                         (acceptAll heldComment) rootFormProps 1700000000 filledWorld
                         heldComment filledWorld_filled eq_refl)
                      eq_refl)).
Defined.

(** ** More about the comment thread *)

Section ThreadKeys.
Variable admin : bool.
Variable opened : gset (list Z).
Variable postSlug : string.

Lemma CommentThread_keys (c : Comment) :
  forall parent d,
    map Thread.key
        (Thread.instancesOf (Thread.CommentThread admin opened postSlug parent d c))
    = keysFrom parent c.
Proof.
  induction c as [c IH] using Comment_ind. intros parent d.
  destruct c as [i ? ? ? ? ? ? ? ? rs]. simpl in *. f_equal.
  induction IH as [|r rs' Hr _ IHrs]; simpl; [done|].
  by rewrite map_app, Hr, IHrs.
Qed.

Lemma threads_keys (cs : list Comment) :
  map Thread.key
      (Thread.instances (Thread.threads (Thread.Comments admin opened postSlug cs)))
  = treeKeys cs.
Proof.
  unfold Thread.instances, treeKeys. simpl.
  induction cs as [|c cs IH]; simpl; [done|].
  by rewrite map_app, CommentThread_keys, IH.
Qed.

(** The key of an instance ends in the id of its comment. *)
Lemma CommentThread_last_key (c : Comment) :
  forall parent d,
    Forall (fun v => last (Thread.key v) = Some (id (Thread.comment v)))
           (Thread.instancesOf (Thread.CommentThread admin opened postSlug parent d c)).
Proof.
  induction c as [c IH] using Comment_ind. intros parent d.
  destruct c as [i ? ? ? ? ? ? ? ? rs]. simpl in *.
  apply List.Forall_cons; [apply last_snoc|].
  induction IH as [|r rs' Hr _ IHrs]; simpl; [apply List.Forall_nil|].
  apply Forall_app. split; [apply Hr | apply IHrs].
Qed.

Lemma threads_last_key (cs : list Comment) :
  Forall (fun v => last (Thread.key v) = Some (id (Thread.comment v)))
         (Thread.instances (Thread.threads (Thread.Comments admin opened postSlug cs))).
Proof.
  unfold Thread.instances. simpl.
  induction cs as [|c cs IH]; simpl; [apply List.Forall_nil|].
  apply Forall_app. split; [apply CommentThread_last_key | apply IH].
Qed.

End ThreadKeys.

Lemma render_last_key (postSlug : string) (p : Thread.Page) (v : Thread.View) :
  In v (Thread.instances (Thread.threads (Thread.render postSlug p))) ->
  last (Thread.key v) = Some (id (Thread.comment v)).
Proof.
  intros Hin. unfold Thread.render in Hin.
  pose proof (threads_last_key (Thread.admin p) (Thread.opened p) postSlug
                (Thread.comments p)) as H.
  rewrite List.Forall_forall in H. by apply H.
Qed.

Lemma render_keys (postSlug : string) (p : Thread.Page) :
  map Thread.key (Thread.instances (Thread.threads (Thread.render postSlug p)))
  = treeKeys (Thread.comments p).
Proof. unfold Thread.render. apply threads_keys. Qed.

Lemma find_key (postSlug : string) (p : Thread.Page) (k : list Z) :
  In k (treeKeys (Thread.comments p)) ->
  exists v, Thread.find postSlug p k = Some v.
Proof.
  rewrite <- (render_keys postSlug). intros Hin.
  apply in_map_iff in Hin as (v & <- & Hin). by apply find_is_Some.
Qed.

(** X5: the number in the heading of the comments section is the number of
    comment blocks on the page, and the "no comments" line is shown exactly
    when there is no block. *)
Theorem X5_heading_counts_the_blocks_on_the_page (postSlug : string) (p : Thread.Page) :
  Thread.titleCount (Thread.render postSlug p)
  = length (Thread.instances (Thread.threads (Thread.render postSlug p)))
  /\ (Thread.emptyMessage (Thread.render postSlug p) = true
      <-> Thread.instances (Thread.threads (Thread.render postSlug p)) = [])
  /\ (Thread.emptyMessage (Thread.render postSlug p) = true
      <-> Thread.titleCount (Thread.render postSlug p) = 0%nat).
Proof.
  assert (Hlen : Thread.titleCount (Thread.render postSlug p)
                 = length (Thread.instances
                             (Thread.threads (Thread.render postSlug p)))).
  { rewrite <- (length_map (fun v => (Thread.comment v, Thread.depth v))).
    unfold Thread.render at 2. rewrite threads_depths.
    rewrite <- (length_map fst), treeDepths_nodes.
    simpl. apply countAllComments_length. }
  assert (Hempty : Thread.emptyMessage (Thread.render postSlug p) = true
                   <-> Thread.titleCount (Thread.render postSlug p) = 0%nat).
  { simpl. rewrite Nat.eqb_eq, countAllComments_length.
    destruct (Thread.comments p) as [|c cs]; simpl; [done|].
    unfold allNodes. destruct c. simpl. split; discriminate. }
  split; [exact Hlen|]. split; [|exact Hempty].
  rewrite Hempty, Hlen. apply length_zero_iff_nil.
Qed.

Lemma step_opened_mounted (postSlug : string) (p p' : Thread.Page) (e : Thread.Event) :
  (forall k, k ∈ Thread.opened p -> In k (treeKeys (Thread.comments p))) ->
  Thread.step postSlug p e = Some p' ->
  forall k, k ∈ Thread.opened p' -> In k (treeKeys (Thread.comments p')).
Proof.
  intros Hinv Hstep k. destruct e as [k0|k0|k0|cs|b]; simpl in Hstep.
  - destruct (Thread.find postSlug p k0) as [v|] eqn:Hf; simpl in Hstep; [|done].
    destruct (Thread.actions v); simpl in Hstep; [|done].
    inversion Hstep; subst; clear Hstep. simpl.
    apply find_instance in Hf as [Hin Hk].
    unfold Thread.toggle. destruct (bool_decide _); intros Hk'.
    + apply elem_of_difference in Hk' as [Hk' _]. by apply Hinv.
    + apply elem_of_union in Hk' as [Hk'|Hk']; [by apply Hinv|].
      apply elem_of_singleton in Hk'. subst k.
      rewrite <- (render_keys postSlug), <- Hk. by apply in_map.
  - destruct (Thread.find postSlug p k0) as [v|]; simpl in Hstep; [|done].
    destruct (Thread.replyForm v); simpl in Hstep; [|done].
    inversion Hstep; subst; clear Hstep. simpl.
    intros Hk'. apply elem_of_difference in Hk' as [Hk' _]. by apply Hinv.
  - destruct (Thread.find postSlug p k0) as [v|]; simpl in Hstep; [|done].
    destruct (Thread.actions v) as [a|]; simpl in Hstep; [|done].
    destruct (Thread.deleteButton a); [|done].
    inversion Hstep; subst; clear Hstep. simpl. apply Hinv.
  - inversion Hstep; subst; clear Hstep.
    intros Hk'. apply elem_of_filter in Hk' as [Hk' _].
    apply list_elem_of_In in Hk'. simpl.
    rewrite <- (threads_keys (Thread.admin p) (Thread.opened p) postSlug cs).
    exact Hk'.
  - inversion Hstep; subst; clear Hstep. simpl. apply Hinv.
Qed.

Lemma run_opened_mounted (postSlug : string) (es : list Thread.Event) :
  forall p p',
    (forall k, k ∈ Thread.opened p -> In k (treeKeys (Thread.comments p))) ->
    Thread.run postSlug p es = Some p' ->
    forall k, k ∈ Thread.opened p' -> In k (treeKeys (Thread.comments p')).
Proof.
  induction es as [|e es IH]; intros p p' Hinv Hrun; simpl in Hrun.
  - by inversion Hrun; subst.
  - destruct (Thread.step postSlug p e) as [p1|] eqn:Hstep; simpl in Hrun; [|done].
    eapply IH; [|exact Hrun]. eapply step_opened_mounted; eauto.
Qed.

(** X6: on every page the visitor can reach, each open reply form is on
    the page, under a comment whose reply button now reads "cancel"; and
    reloading the same comments closes none of them. *)
Theorem X6_open_reply_forms_stay_on_the_page
    (postSlug : string) (comments : list Comment) (admin : bool)
    (es : list Thread.Event) (p : Thread.Page) :
  Thread.run postSlug (Thread.initial comments admin) es = Some p ->
  (forall k, k ∈ Thread.opened p ->
     exists v, In v (Thread.instances (Thread.threads (Thread.render postSlug p)))
               /\ Thread.key v = k
               /\ Thread.replyForm v
                  = Some (Form.mkProps postSlug (Some (id (Thread.comment v))) true true)
               /\ Thread.actions v
                  = Some (Thread.mkActions (Form.t "comments.cancel") (Thread.admin p)))
  /\ Thread.step postSlug p (Thread.Refetch (Thread.comments p)) = Some p.
Proof.
  intros Hrun.
  assert (Hmounted : forall k, k ∈ Thread.opened p ->
                               In k (treeKeys (Thread.comments p))).
  { eapply run_opened_mounted; [|exact Hrun]. simpl. intros k Hk.
    by apply not_elem_of_empty in Hk. }
  assert (Hcap : opened_above_cap p).
  { eapply run_opened_above_cap; [|exact Hrun]. apply initial_opened_above_cap. }
  split.
  - intros k Hk. specialize (Hmounted k Hk).
    rewrite <- (render_keys postSlug) in Hmounted.
    apply in_map_iff in Hmounted as (v & Hkey & Hin).
    exists v. split; [done|]. split; [done|].
    pose proof (instances_ok postSlug p v Hin) as (_ & Hlen & Hact & Hform).
    simpl in Hlen. rewrite Hkey in *.
    rewrite bool_decide_eq_true_2 in Hact, Hform by done.
    split; [done|]. rewrite Hact.
    apply Hcap in Hk. unfold Thread.maxDepth in *.
    assert (Hd : (Thread.depth v <? 4)%nat = true) by (apply Nat.ltb_lt; lia).
    by rewrite Hd.
  - simpl. f_equal. destruct p as [cs op ad se]. simpl in *. f_equal.
    apply set_eq. intros k. rewrite elem_of_filter. split; [tauto|].
    intros Hk. split; [|done]. apply list_elem_of_In.
    pose proof (threads_keys ad op postSlug cs) as Hkeys. simpl in Hkeys.
    rewrite Hkeys. by apply Hmounted.
Qed.

Lemma X6_witness :
  Thread.step "hello-world" replyOpened (Thread.Refetch deepChain) = Some replyOpened.
Proof.
  exact (proj2 (X6_open_reply_forms_stay_on_the_page
                  "hello-world" deepChain false [Thread.ClickReply [0; 1; 2; 3]]
                  replyOpened ltac:(vm_compute; reflexivity))).
Defined.

Lemma step_sent (postSlug : string) (p p' : Thread.Page) (e : Thread.Event) :
  Thread.step postSlug p e = Some p' ->
  Thread.sent p' = Thread.sent p
  \/ (Thread.admin p = true
      /\ exists v, In v (Thread.instances (Thread.threads (Thread.render postSlug p)))
                   /\ (Thread.depth v < Thread.maxDepth)%nat
                   /\ Thread.sent p'
                      = Thread.sent p ++ [Api.deleteComment (id (Thread.comment v))]).
Proof.
  intros Hstep. destruct e as [k0|k0|k0|cs|b]; simpl in Hstep.
  - destruct (Thread.find postSlug p k0) as [v|]; simpl in Hstep; [|done].
    destruct (Thread.actions v); simpl in Hstep; [|done].
    inversion Hstep; subst. by left.
  - destruct (Thread.find postSlug p k0) as [v|]; simpl in Hstep; [|done].
    destruct (Thread.replyForm v); simpl in Hstep; [|done].
    inversion Hstep; subst. by left.
  - destruct (Thread.find postSlug p k0) as [v|] eqn:Hf; simpl in Hstep; [|done].
    destruct (Thread.actions v) as [a|] eqn:Ha; simpl in Hstep; [|done].
    destruct (Thread.deleteButton a) eqn:Hd; [|done].
    inversion Hstep; subst; clear Hstep. right. simpl.
    apply find_instance in Hf as [Hin _].
    pose proof (instances_ok postSlug p v Hin) as (_ & _ & Hact & _).
    rewrite Ha in Hact.
    destruct (Thread.depth v <? Thread.maxDepth)%nat eqn:Hlt; [|done].
    inversion Hact; subst a. simpl in Hd.
    split; [done|]. exists v. split; [done|]. split; [|done].
    by apply Nat.ltb_lt.
  - inversion Hstep; subst. by left.
  - inversion Hstep; subst. by left.
Qed.

Lemma step_admin (postSlug : string) (p p' : Thread.Page) (e : Thread.Event) :
  Thread.step postSlug p e = Some p' ->
  e <> Thread.SetAdmin true ->
  Thread.admin p = false -> Thread.admin p' = false.
Proof.
  intros Hstep Hne Hadmin. destruct e as [k0|k0|k0|cs|b]; simpl in Hstep.
  - destruct (Thread.find postSlug p k0) as [v|]; simpl in Hstep; [|done].
    destruct (Thread.actions v); simpl in Hstep; [|done]. by inversion Hstep; subst.
  - destruct (Thread.find postSlug p k0) as [v|]; simpl in Hstep; [|done].
    destruct (Thread.replyForm v); simpl in Hstep; [|done]. by inversion Hstep; subst.
  - destruct (Thread.find postSlug p k0) as [v|]; simpl in Hstep; [|done].
    destruct (Thread.actions v) as [a|]; simpl in Hstep; [|done].
    destruct (Thread.deleteButton a); [|done]. by inversion Hstep; subst.
  - by inversion Hstep; subst.
  - inversion Hstep; subst. simpl. destruct b; [|done]. by destruct Hne.
Qed.

Lemma run_sent (postSlug : string) (es : list Thread.Event) :
  forall p p',
    Thread.run postSlug p es = Some p' ->
    (forall r, In r (Thread.sent p) -> exists i, r = Api.deleteComment i) ->
    (forall r, In r (Thread.sent p') -> exists i, r = Api.deleteComment i)
    /\ (Thread.admin p = false -> noLogin es -> Thread.sent p' = Thread.sent p).
Proof.
  induction es as [|e es IH]; intros p p' Hrun Hinv; simpl in Hrun.
  - inversion Hrun; subst. by split.
  - destruct (Thread.step postSlug p e) as [p1|] eqn:Hstep; simpl in Hrun; [|done].
    pose proof (step_sent _ _ _ _ Hstep) as Hsent.
    assert (Hinv1 : forall r, In r (Thread.sent p1) -> exists i, r = Api.deleteComment i).
    { destruct Hsent as [->|(_ & v & _ & _ & ->)]; [done|].
      intros r Hr. apply in_app_or in Hr as [Hr|[<-|[]]]; [by apply Hinv|].
      by eexists. }
    destruct (IH p1 p' Hrun Hinv1) as [H1 H2]. split; [done|].
    intros Hadmin Hno. inversion Hno as [|? ? Hne Hno']; subst.
    rewrite H2; [|by eapply step_admin|done].
    destruct Hsent as [->|(Htrue & _)]; [done|congruence].
Qed.

(** X7: the only requests the delete buttons of the thread send are
    deletions.  A delete click is possible only while an admin token is
    present, on an instance that is on the page above the cap; it sends the
    deletion of the comment of the very instance that was clicked, whose id
    ends the key of that instance, and changes nothing else of the page.  As
    long as nobody logs in, a visitor without the token sends no deletion.
    (The requests of the reply forms are the forms' own.) *)
Theorem X7_thread_sends_only_admin_deletions
    (postSlug : string) (comments : list Comment) (admin : bool)
    (es : list Thread.Event) (p : Thread.Page) :
  Thread.run postSlug (Thread.initial comments admin) es = Some p ->
  (forall r, In r (Thread.sent p) -> exists i, r = Api.deleteComment i)
  /\ (admin = false -> noLogin es -> Thread.sent p = [])
  /\ (forall k p', Thread.step postSlug p (Thread.ClickDelete k) = Some p' ->
                   Thread.admin p = true
                   /\ exists v, Thread.find postSlug p k = Some v
                                /\ In v (Thread.instances
                                           (Thread.threads (Thread.render postSlug p)))
                                /\ Thread.key v = k
                                /\ last k = Some (id (Thread.comment v))
                                /\ (Thread.depth v < Thread.maxDepth)%nat
                                /\ p' = Thread.mkPage
                                          (Thread.comments p) (Thread.opened p)
                                          (Thread.admin p)
                                          (Thread.sent p
                                           ++ [Api.deleteComment
                                                 (id (Thread.comment v))])).
Proof.
  intros Hrun.
  destruct (run_sent postSlug es _ _ Hrun) as [H1 H2]; [by intros r []|].
  split; [done|]. split; [exact H2|].
  intros k p' Hstep. simpl in Hstep.
  destruct (Thread.find postSlug p k) as [v|] eqn:Hf; simpl in Hstep; [|done].
  destruct (Thread.actions v) as [a|] eqn:Ha; simpl in Hstep; [|done].
  destruct (Thread.deleteButton a) eqn:Hd; [|done].
  inversion Hstep; subst p'; clear Hstep.
  destruct (find_instance _ _ _ _ Hf) as [Hin Hk].
  pose proof (instances_ok postSlug p v Hin) as (_ & _ & Hact & _).
  rewrite Ha in Hact.
  destruct (Thread.depth v <? Thread.maxDepth)%nat eqn:Hlt; [|done].
  inversion Hact; subst a. simpl in Hd.
  split; [done|]. exists v.
  split; [done|].
  split; [done|]. split; [done|].
  split; [rewrite <- Hk; by eapply render_last_key|].
  split; [by apply Nat.ltb_lt | done].
Qed.

Lemma X7_witness :
  Thread.run "hello-world" (Thread.initial deepChain false)
             [Thread.ClickReply [0; 1; 2; 3]] = Some replyOpened
  /\ Thread.sent replyOpened = [].
Proof.
  assert (Hrun : Thread.run "hello-world" (Thread.initial deepChain false)
                            [Thread.ClickReply [0; 1; 2; 3]] = Some replyOpened)
    by (vm_compute; reflexivity).
  split; [exact Hrun|].
  refine (proj1 (proj2 (X7_thread_sends_only_admin_deletions
                          "hello-world" deepChain false
                          [Thread.ClickReply [0; 1; 2; 3]] replyOpened Hrun))
                eq_refl _).
  repeat constructor. discriminate.
Defined.

Lemma toggle_toggle (k : list Z) (s : gset (list Z)) :
  Thread.toggle k (Thread.toggle k s) = s.
Proof.
  unfold Thread.toggle. destruct (bool_decide (k ∈ s)) eqn:Hk.
  - apply bool_decide_eq_true in Hk.
    rewrite bool_decide_eq_false_2
      by (rewrite elem_of_difference, elem_of_singleton; tauto).
    apply set_eq. intros x. rewrite elem_of_union, elem_of_difference, elem_of_singleton.
    destruct (decide (x = k)) as [->|]; tauto.
  - apply bool_decide_eq_false in Hk.
    rewrite bool_decide_eq_true_2
      by (rewrite elem_of_union, elem_of_singleton; tauto).
    apply set_eq. intros x. rewrite elem_of_difference, elem_of_union, elem_of_singleton.
    destruct (decide (x = k)) as [->|]; tauto.
Qed.

(** X8: pressing the reply button of a comment a second time is always
    possible and brings the page back to what it was; the first press opens
    the form when it was closed and closes it when it was open, and touches
    the form of no other comment. *)
Theorem X8_reply_button_toggles
    (postSlug : string) (p p1 : Thread.Page) (k : list Z) :
  Thread.step postSlug p (Thread.ClickReply k) = Some p1 ->
  Thread.step postSlug p1 (Thread.ClickReply k) = Some p
  /\ (k ∈ Thread.opened p1 <-> k ∉ Thread.opened p)
  /\ (forall k', k' <> k -> (k' ∈ Thread.opened p1 <-> k' ∈ Thread.opened p))
  /\ Thread.comments p1 = Thread.comments p.
Proof.
  intros Hstep. simpl in Hstep.
  destruct (Thread.find postSlug p k) as [v|] eqn:Hf; simpl in Hstep; [|done].
  destruct (Thread.actions v) as [a|] eqn:Ha; simpl in Hstep; [|done].
  inversion Hstep; subst p1; clear Hstep.
  apply find_instance in Hf as [Hin Hk].
  pose proof (instances_ok postSlug p v Hin) as (_ & Hlen & Hact & _).
  simpl in Hlen. rewrite Ha in Hact.
  destruct (Thread.depth v <? Thread.maxDepth)%nat eqn:Hd; [|done].
  apply Nat.ltb_lt in Hd.
  split; [|split; [|split]].
  - set (p1 := Thread.mkPage (Thread.comments p) (Thread.toggle k (Thread.opened p))
                             (Thread.admin p) (Thread.sent p)).
    assert (Hkey : In k (treeKeys (Thread.comments p1))).
    { simpl. rewrite <- (render_keys postSlug p), <- Hk. by apply in_map. }
    destruct (find_key postSlug p1 k Hkey) as [v1 Hf1].
    simpl. rewrite Hf1. simpl.
    apply find_instance in Hf1 as [Hin1 Hk1].
    pose proof (instances_ok postSlug p1 v1 Hin1) as (_ & Hlen1 & Hact1 & _).
    simpl in Hlen1.
    assert (Hd1 : (Thread.depth v1 <? Thread.maxDepth)%nat = true).
    { apply Nat.ltb_lt. rewrite Hk1, <- Hk in Hlen1. lia. }
    rewrite Hd1 in Hact1. rewrite Hact1. simpl.
    rewrite toggle_toggle. by destruct p.
  - simpl. unfold Thread.toggle. destruct (bool_decide (k ∈ Thread.opened p)) eqn:E.
    + apply bool_decide_eq_true in E.
      rewrite elem_of_difference, elem_of_singleton. tauto.
    + apply bool_decide_eq_false in E.
      rewrite elem_of_union, elem_of_singleton. tauto.
  - intros k' Hne. simpl. unfold Thread.toggle.
    destruct (bool_decide (k ∈ Thread.opened p));
      [rewrite elem_of_difference | rewrite elem_of_union];
      rewrite elem_of_singleton; tauto.
  - reflexivity.
Qed.

Lemma X8_witness :
  Thread.step "hello-world" replyOpened (Thread.ClickReply [0; 1; 2; 3])
  = Some (Thread.initial deepChain false).
Proof.
  exact (proj1 (X8_reply_button_toggles
                  "hello-world" (Thread.initial deepChain false) replyOpened
                  [0; 1; 2; 3] ltac:(vm_compute; reflexivity))).
Defined.

(** ** More about the moderation table *)

Lemma step_commentsPage (rows : list Comment) (s s' : Admin.State) (e : Admin.Event) :
  1 <= Admin.commentsPage s ->
  Admin.step rows s e = Some s' ->
  1 <= Admin.commentsPage s'.
Proof.
  intros Hs Hstep. destruct e as [value| | |a row]; simpl in Hstep.
  - case_bool_decide; [|done]. by inversion Hstep; subst.
  - destruct (_ && _); [|done]. inversion Hstep; subst. simpl. lia.
  - destruct (_ && _); [|done]. inversion Hstep; subst. simpl.
    unfold Admin.commentsTotalPages. destruct (_ =? _); lia.
  - destruct (rows !! row) as [c|]; simpl in Hstep; [|done].
    case_bool_decide; [|done]. by inversion Hstep; subst.
Qed.

Lemma run_commentsPage (es : list (list Comment * Admin.Event)) :
  forall s s', 1 <= Admin.commentsPage s ->
               Admin.run s es = Some s' ->
               1 <= Admin.commentsPage s'.
Proof.
  induction es as [|[rows e] es IH]; intros s s' Hs Hrun; simpl in Hrun.
  - by inversion Hrun; subst.
  - destruct (Admin.step rows s e) as [s1|] eqn:Hstep; simpl in Hrun; [|done].
    eapply IH; [|exact Hrun]. eapply step_commentsPage; eauto.
Qed.

(** X9: throughout a session on the comments tab the page number is at
    least one; "next" can be pressed exactly when the table is full (ten
    rows) and then adds one; "previous" can be pressed exactly when the page
    is not the first and then subtracts one; choosing another status keeps
    the page number. *)
Theorem X9_comment_pages
    (es : list (list Comment * Admin.Event)) (s : Admin.State) :
  Admin.run Admin.initialState es = Some s ->
  1 <= Admin.commentsPage s
  /\ (forall rows, is_Some (Admin.step rows s Admin.NextPage) <-> length rows = 10%nat)
  /\ (forall rows s', Admin.step rows s Admin.NextPage = Some s' ->
                      Admin.commentsPage s' = Admin.commentsPage s + 1
                      /\ Admin.commentStatus s' = Admin.commentStatus s)
  /\ (forall rows, is_Some (Admin.step rows s Admin.PreviousPage)
                   <-> Admin.commentsPage s <> 1)
  /\ (forall rows s', Admin.step rows s Admin.PreviousPage = Some s' ->
                      Admin.commentsPage s' = Admin.commentsPage s - 1
                      /\ Admin.commentStatus s' = Admin.commentStatus s)
  /\ (forall rows value s', Admin.step rows s (Admin.SelectStatus value) = Some s' ->
                            Admin.commentsPage s' = Admin.commentsPage s).
Proof.
  intros Hrun.
  assert (Hp : 1 <= Admin.commentsPage s).
  { eapply run_commentsPage; [|exact Hrun]. simpl. lia. }
  assert (Hfull : forall rows : list Comment,
             (Z.of_nat (length rows) =? Admin.commentsPerPage) = true
             <-> length rows = 10%nat).
  { intros rows. unfold Admin.commentsPerPage. rewrite Z.eqb_eq. lia. }
  split; [exact Hp|]. split; [|split; [|split; [|split]]].
  - intros rows. simpl. unfold Admin.commentsTotalPages. rewrite <- Hfull.
    destruct (_ =? _) eqn:E; simpl.
    + assert (H1 : (1 <? Admin.commentsPage s + 1) = true) by (apply Z.ltb_lt; lia).
      assert (H2 : (Admin.commentsPage s =? Admin.commentsPage s + 1) = false)
        by (apply Z.eqb_neq; lia).
      rewrite H1, H2. simpl. split; [done|]. intros _. by eexists.
    + rewrite Z.eqb_refl, andb_false_r. split; [by intros [? ?]|done].
  - intros rows s'. simpl. unfold Admin.commentsTotalPages.
    destruct (_ =? _) eqn:E; simpl.
    + destruct (_ && _); [|done]. intros H. inversion H; subst. simpl.
      split; [lia|done].
    + by rewrite Z.eqb_refl, andb_false_r.
  - intros rows. simpl. unfold Admin.commentsTotalPages.
    destruct (Admin.commentsPage s =? 1) eqn:E1.
    + apply Z.eqb_eq in E1. rewrite andb_false_r.
      split; [by intros [? ?]|done].
    + apply Z.eqb_neq in E1. rewrite andb_true_r.
      assert (H1 : (1 <? (if Z.of_nat (length rows) =? Admin.commentsPerPage
                          then Admin.commentsPage s + 1
                          else Admin.commentsPage s)) = true).
      { apply Z.ltb_lt. destruct (_ =? _); lia. }
      rewrite H1. split; [done|]. intros _. by eexists.
  - intros rows s'. simpl. destruct (_ && _) eqn:E; [|done].
    apply andb_true_iff in E as [_ E]. apply negb_true_iff, Z.eqb_neq in E.
    intros H. inversion H; subst. simpl. split; [lia|done].
  - intros rows value s'. simpl. case_bool_decide as Hv; [|done].
    intros Hs'. by inversion Hs'; subst.
Qed.

Lemma X9_witness :
  is_Some (Admin.step (replicate 10 heldComment) (Admin.mkState 2 "pending" [])
                      Admin.NextPage)
  /\ ~ is_Some (Admin.step [heldComment] (Admin.mkState 2 "pending" []) Admin.NextPage).
Proof.
  pose proof (X9_comment_pages
                [([], Admin.SelectStatus "pending");
                 (replicate 10 heldComment, Admin.NextPage)]
                (Admin.mkState 2 "pending" []) eq_refl) as (_ & Hnext & _).
  split.
  - apply (proj2 (Hnext (replicate 10 heldComment))). reflexivity.
  - intros Hsome. apply (proj1 (Hnext [heldComment])) in Hsome. discriminate.
Defined.

Import (hints) Admin.

(** X10: the number on the comments tab is the number of rows of the table
    that have an approve button; with the rows that have a reject button it
    makes up the table. *)
Theorem X10_tab_counts_rows_awaiting_approval (rows : list Comment) :
  pendingCount rows
  = length (List.filter (fun c => bool_decide (Admin.Approve ∈ Admin.rowActions c)) rows)
  /\ (pendingCount rows
      + length (List.filter (fun c => bool_decide (Admin.Reject ∈ Admin.rowActions c)) rows)
      = length rows)%nat
  /\ (pendingCount rows <= length rows)%nat.
Proof.
  unfold pendingCount.
  assert (H : forall c, bool_decide (Admin.Approve ∈ Admin.rowActions c)
                        = negb (is_approved c)
                        /\ bool_decide (Admin.Reject ∈ Admin.rowActions c)
                           = is_approved c).
  { intros c. rewrite rowActions_cases. by destruct (is_approved c). }
  induction rows as [|c rows (IH1 & IH2 & IH3)]; simpl; [done|].
  destruct (H c) as [-> ->]. destruct (is_approved c); simpl; lia.
Qed.

(** ** The admin token *)

Lemma isAdmin_token (storage : gmap string Js.jsstring) :
  Auth.isAdmin storage = true
  <-> exists token, Auth.getAdminToken storage = Some token /\ token <> [].
Proof.
  unfold Auth.isAdmin. destruct (Auth.getAdminToken storage) as [token|]; split.
  - intros H. exists token. split; [done|]. by apply truthy_not_nil.
  - intros (t0 & Ht & Hne). inversion Ht; subst. by apply truthy_not_nil.
  - done.
  - by intros (t0 & Ht & _).
Qed.

(** X11: the token read back is the token last stored, and none after it
    was cleared; [isAdmin] holds after storing exactly when the token is not
    the empty string, and never after clearing; storing and clearing touch no
    other key of the local storage. *)
Theorem X11_admin_token_round_trip (token : Js.jsstring) (storage : gmap string Js.jsstring) :
  Auth.getAdminToken (Auth.setAdminToken token storage) = Some token
  /\ Auth.isAdmin (Auth.setAdminToken token storage) = Js.truthy token
  /\ Auth.getAdminToken (Auth.clearAdminToken storage) = None
  /\ Auth.isAdmin (Auth.clearAdminToken storage) = false
  /\ Auth.clearAdminToken (Auth.setAdminToken token storage) = Auth.clearAdminToken storage
  /\ (forall key, key <> Auth.adminTokenKey ->
                  Auth.setAdminToken token storage !! key = storage !! key
                  /\ Auth.clearAdminToken storage !! key = storage !! key).
Proof.
  unfold Auth.isAdmin, Auth.getAdminToken, Auth.setAdminToken, Auth.clearAdminToken.
  rewrite lookup_insert_eq, lookup_delete_eq, delete_insert_eq.
  repeat split; try done.
  - by rewrite lookup_insert_ne.
  - by rewrite lookup_delete_ne.
Qed.

Lemma login_cases (server : Js.jsstring -> Auth.LoginResponse) (accepts : Storage.Quota)
    (token : Js.jsstring) (storage : gmap string Js.jsstring) :
  (exists access,
      server token = Auth.Answered (Auth.mkLoginData true (Some access))
      /\ access <> []
      /\ accepts Auth.adminTokenKey access storage = true
      /\ Auth.login server accepts token storage
         = (true, Auth.setAdminToken access storage))
  \/ ((forall access,
          server token = Auth.Answered (Auth.mkLoginData true (Some access)) ->
          access <> [] ->
          accepts Auth.adminTokenKey access storage = false)
      /\ Auth.login server accepts token storage = (false, storage)).
Proof.
  unfold Auth.login, Storage.setItem.
  destruct (server token) as [[ok [access|]]|] eqn:Hs; simpl.
  - destruct ok; simpl.
    + destruct (Js.truthy access) eqn:Ht; simpl.
      * destruct (accepts Auth.adminTokenKey access storage) eqn:Hq.
        -- left. exists access. repeat split; try done. by apply truthy_not_nil.
        -- right. split; [|done]. intros a Ha _. by inversion Ha; subst a.
      * right. split; [|done]. intros a Ha Hne. inversion Ha; subst a.
        apply truthy_not_nil in Hne. congruence.
    + right. split; [|done]. by intros a Ha.
  - right. split; [|done]. by intros a Ha.
  - right. split; [|done]. by intros a Ha.
Qed.

(** X12: [login] answers [true] exactly when the server answered with
    success and a non-empty access token and the browser took the write of
    that token; then that token is the stored one and [isAdmin] holds.  When
    it answers [false], as it does when the server said yes and the write
    threw, the local storage is as it was. *)
Theorem X12_login_stores_the_token_only_on_success
    (server : Js.jsstring -> Auth.LoginResponse) (accepts : Storage.Quota)
    (token : Js.jsstring) (storage : gmap string Js.jsstring) :
  ((Auth.login server accepts token storage).1 = true
   <-> exists access, server token = Auth.Answered (Auth.mkLoginData true (Some access))
                      /\ access <> []
                      /\ accepts Auth.adminTokenKey access storage = true)
  /\ (forall access,
        server token = Auth.Answered (Auth.mkLoginData true (Some access)) ->
        (Auth.login server accepts token storage).1 = true ->
        (Auth.login server accepts token storage).2 = Auth.setAdminToken access storage
        /\ Auth.getAdminToken (Auth.login server accepts token storage).2 = Some access
        /\ Auth.isAdmin (Auth.login server accepts token storage).2 = true)
  /\ (forall access,
        server token = Auth.Answered (Auth.mkLoginData true (Some access)) ->
        accepts Auth.adminTokenKey access storage = false ->
        Auth.login server accepts token storage = (false, storage))
  /\ ((Auth.login server accepts token storage).1 = false ->
      (Auth.login server accepts token storage).2 = storage).
Proof.
  destruct (login_cases server accepts token storage)
    as [(access & Hs & Hne & Hq & ->)|[Hno ->]]; simpl.
  - split; [|split; [|split]].
    + split; [|done]. intros _. by exists access.
    + intros a Ha _. rewrite Hs in Ha. inversion Ha; subst a.
      split; [done|].
      unfold Auth.isAdmin, Auth.getAdminToken, Auth.setAdminToken.
      rewrite lookup_insert_eq. split; [done|]. by apply truthy_not_nil.
    + intros a Ha Hq'. rewrite Hs in Ha. inversion Ha; subst a. congruence.
    + done.
  - split; [|split; [|split]]; try done.
    split; [done|]. intros (a & Ha & Hne & Hq).
    rewrite (Hno a Ha Hne) in Hq. discriminate.
Qed.

(** X13: the interceptor adds the header [Authorization: Bearer token]
    exactly when [isAdmin] holds, with the stored token, and changes nothing
    else; after the token was cleared a request goes out as it was built;
    after a [login] that answered [true] every request carries the access
    token the server gave, and after one that answered [false] requests go
    out as they would have before. *)
Theorem X13_bearer_header_follows_the_token
    (storage : gmap string Js.jsstring) (headers : gmap string Js.jsstring) :
  Auth.interceptor storage headers
  = (if Auth.isAdmin storage
     then <["Authorization" :=
              Js.ofString "Bearer " ++ default [] (Auth.getAdminToken storage)]> headers
     else headers)
  /\ (forall name, name <> "Authorization" ->
                   Auth.interceptor storage headers !! name = headers !! name)
  /\ Auth.interceptor (Auth.clearAdminToken storage) headers = headers
  /\ (forall server accepts token access,
        server token = Auth.Answered (Auth.mkLoginData true (Some access)) ->
        (Auth.login server accepts token storage).1 = true ->
        Auth.interceptor (Auth.login server accepts token storage).2 headers
          !! "Authorization"
        = Some (Js.ofString "Bearer " ++ access))
  /\ (forall server accepts token,
        (Auth.login server accepts token storage).1 = false ->
        Auth.interceptor (Auth.login server accepts token storage).2 headers
        = Auth.interceptor storage headers).
Proof.
  assert (H1 : forall st,
             Auth.interceptor st headers
             = (if Auth.isAdmin st
                then <["Authorization" :=
                         Js.ofString "Bearer " ++ default [] (Auth.getAdminToken st)]>
                       headers
                else headers)).
  { intros st. unfold Auth.interceptor, Auth.isAdmin, Auth.getAdminToken.
    destruct (st !! Auth.adminTokenKey) as [t0|]; [|done]. simpl.
    by destruct (Js.truthy t0). }
  split; [apply H1|]. split; [|split; [|split]].
  - intros name Hne. rewrite H1. destruct (Auth.isAdmin storage); [|done].
    by rewrite lookup_insert_ne.
  - rewrite H1. unfold Auth.isAdmin, Auth.getAdminToken, Auth.clearAdminToken.
    by rewrite lookup_delete_eq.
  - intros server accepts token access Hs Hok.
    destruct (login_cases server accepts token storage)
      as [(a & Ha & Hne & _ & Hl)|[_ Hl]]; rewrite Hl in Hok |- *; [|done].
    rewrite Hs in Ha. inversion Ha; subst a. simpl. rewrite H1.
    apply truthy_not_nil in Hne.
    unfold Auth.isAdmin, Auth.getAdminToken, Auth.setAdminToken.
    by rewrite lookup_insert_eq, Hne, lookup_insert_eq.
  - intros server accepts token Hok.
    destruct (login_cases server accepts token storage)
      as [(a & _ & _ & _ & Hl)|[_ Hl]]; rewrite Hl in Hok |- *; done.
Qed.

Lemma handleLogin_blank (server : Js.jsstring -> Auth.LoginResponse)
    (accepts : Storage.Quota) (p : Auth.Page) :
  blank (Auth.token p) -> Auth.handleLogin server accepts p = p.
Proof.
  intros Hb. unfold Auth.handleLogin. apply truthy_trim in Hb. by rewrite Hb.
Qed.

Lemma step_authenticated (p p' : Auth.Page) (e : Auth.Event) :
  Auth.authenticated p = Auth.isAdmin (Auth.storage p) ->
  Auth.step p e = Some p' ->
  Auth.authenticated p' = Auth.isAdmin (Auth.storage p').
Proof.
  intros Hinv Hstep. destruct e as [v|server accepts|]; simpl in Hstep.
  - destruct (Auth.authenticated p); [done|]. by inversion Hstep; subst.
  - destruct (Auth.authenticated p) eqn:Ha; [done|]. inversion Hstep; subst; clear Hstep.
    unfold Auth.handleLogin.
    destruct (Js.truthy (Js.trim (Auth.token p))); simpl; [|by rewrite Ha].
    destruct (login_cases server accepts (Js.trim (Auth.token p)) (Auth.storage p))
      as [(a & _ & Hne & _ & ->)|[_ ->]]; simpl; [|by rewrite Ha].
    unfold Auth.isAdmin, Auth.getAdminToken, Auth.setAdminToken.
    rewrite lookup_insert_eq. symmetry. by apply truthy_not_nil.
  - destruct (Auth.authenticated p); [|done]. inversion Hstep; subst. simpl.
    unfold Auth.isAdmin, Auth.getAdminToken, Auth.clearAdminToken.
    by rewrite lookup_delete_eq.
Qed.

Lemma login_other_keys (server : Js.jsstring -> Auth.LoginResponse)
    (accepts : Storage.Quota) (token : Js.jsstring)
    (storage : gmap string Js.jsstring) (key : string) :
  key <> Auth.adminTokenKey ->
  (Auth.login server accepts token storage).2 !! key = storage !! key.
Proof.
  intros Hne.
  destruct (login_cases server accepts token storage)
    as [(a & _ & _ & _ & ->)|[_ ->]]; simpl; [|done].
  unfold Auth.setAdminToken. by rewrite lookup_insert_ne.
Qed.

Lemma step_attempts (p p' : Auth.Page) (e : Auth.Event) (key : string) :
  Auth.step p e = Some p' ->
  (Forall (fun t => ~ blank t /\ trimmed t) (Auth.attempts p) ->
   Forall (fun t => ~ blank t /\ trimmed t) (Auth.attempts p'))
  /\ (key <> Auth.adminTokenKey -> Auth.storage p' !! key = Auth.storage p !! key).
Proof.
  intros Hstep. destruct e as [v|server accepts|]; simpl in Hstep.
  - destruct (Auth.authenticated p); [done|]. by inversion Hstep; subst.
  - destruct (Auth.authenticated p); [done|]. inversion Hstep; subst; clear Hstep.
    unfold Auth.handleLogin.
    destruct (Js.truthy (Js.trim (Auth.token p))) eqn:Ht; simpl; [|done].
    pose proof (login_other_keys server accepts (Js.trim (Auth.token p))
                  (Auth.storage p) key) as Hkeys.
    destruct (Auth.login server accepts (Js.trim (Auth.token p)) (Auth.storage p))
      as [ok storage'].
    assert (Hnew : ~ blank (Js.trim (Auth.token p)) /\ trimmed (Js.trim (Auth.token p))).
    { split; [|apply trim_idempotent].
      intros Hb. apply trim_blank in Hb. rewrite trim_idempotent in Hb.
      by rewrite Hb in Ht. }
    destruct ok; simpl; (split; [|exact Hkeys]); intros Hall;
      apply Forall_app; split; try done; by constructor.
  - destruct (Auth.authenticated p); [|done]. inversion Hstep; subst. simpl.
    split; [done|]. intros Hne. unfold Auth.clearAdminToken.
    by rewrite lookup_delete_ne.
Qed.

(** X14: through any sequence of typing, login attempts and logouts on the
    admin page, the page counts as authenticated exactly when [isAdmin]
    holds for the local storage; every token sent to the server is trimmed
    and not blank; submitting a blank token does nothing; and no other key of
    the local storage is touched. *)
Theorem X14_authenticated_means_token_stored
    (storage : gmap string Js.jsstring) (es : list Auth.Event) (p : Auth.Page) :
  Auth.run (Auth.initial storage) es = Some p ->
  Auth.authenticated p = Auth.isAdmin (Auth.storage p)
  /\ Forall (fun t => ~ blank t /\ trimmed t) (Auth.attempts p)
  /\ (forall server accepts,
        blank (Auth.token p) -> Auth.handleLogin server accepts p = p)
  /\ (forall key, key <> Auth.adminTokenKey ->
                  Auth.storage p !! key = storage !! key).
Proof.
  intros Hrun.
  assert (Hgen : forall es p0 p1,
             Auth.run p0 es = Some p1 ->
             Auth.authenticated p0 = Auth.isAdmin (Auth.storage p0) ->
             Forall (fun t => ~ blank t /\ trimmed t) (Auth.attempts p0) ->
             Auth.authenticated p1 = Auth.isAdmin (Auth.storage p1)
             /\ Forall (fun t => ~ blank t /\ trimmed t) (Auth.attempts p1)
             /\ forall key, key <> Auth.adminTokenKey ->
                            Auth.storage p1 !! key = Auth.storage p0 !! key).
  { clear. induction es as [|e es IH]; intros p0 p1 Hrun Ha Hb; simpl in Hrun.
    - by inversion Hrun; subst.
    - destruct (Auth.step p0 e) as [p'|] eqn:Hstep; simpl in Hrun; [|done].
      destruct (IH p' p1 Hrun) as (H1 & H2 & H3).
      + by eapply step_authenticated.
      + by apply (proj1 (step_attempts p0 p' e "" Hstep)).
      + split; [done|]. split; [done|]. intros key Hne.
        rewrite H3 by done. by apply (proj2 (step_attempts p0 p' e key Hstep)). }
  destruct (Hgen es _ _ Hrun eq_refl) as (H1 & H2 & H3); [constructor|].
  split; [done|]. split; [done|]. split; [|exact H3].
  intros server accepts. apply handleLogin_blank.
Qed.

Lemma X14_witness :
  Auth.run (Auth.initial ∅) adminVisit = Some afterAdminVisit
  /\ Auth.isAdmin (Auth.storage afterAdminVisit) = false.
Proof.
  assert (Hrun : Auth.run (Auth.initial ∅) adminVisit = Some afterAdminVisit)
    by (vm_compute; reflexivity).
  split; [exact Hrun|].
  symmetry. exact (proj1 (X14_authenticated_means_token_stored ∅ adminVisit
                            afterAdminVisit Hrun)).
Defined.

(** ** The post editor *)

Lemma split_pieces_clean (sep : N) (s : Js.jsstring) :
  Forall (fun piece => ~ In sep piece) (JsText.split sep s).
Proof.
  induction s as [|c s IH]; simpl.
  { apply List.Forall_cons; [by intros []|apply List.Forall_nil]. }
  destruct (c =? sep)%N eqn:Hc.
  - apply List.Forall_cons; [by intros []|exact IH].
  - apply N.eqb_neq in Hc.
    destruct (JsText.split sep s) as [|piece pieces].
    { apply List.Forall_cons; [|apply List.Forall_nil]. by intros [?|[]]. }
    inversion IH as [|? ? Hpiece Hpieces]; subst.
    apply List.Forall_cons; [|done].
    intros [?|?]; [done|]. by apply Hpiece.
Qed.

Lemma split_no_sep (sep : N) (s : Js.jsstring) :
  ~ In sep s -> JsText.split sep s = [s].
Proof.
  induction s as [|c s IH]; intros Hs; simpl; [done|].
  destruct (c =? sep)%N eqn:Hc.
  - apply N.eqb_eq in Hc. subst. exfalso. apply Hs. by left.
  - rewrite IH; [done|]. intros H. apply Hs. by right.
Qed.

Lemma split_app_sep (sep : N) (s rest : Js.jsstring) :
  ~ In sep s -> JsText.split sep (s ++ sep :: rest) = s :: JsText.split sep rest.
Proof.
  induction s as [|c s IH]; intros Hs; simpl.
  - by rewrite N.eqb_refl.
  - destruct (c =? sep)%N eqn:Hc.
    + apply N.eqb_eq in Hc. subst. exfalso. apply Hs. by left.
    + rewrite IH; [done|]. intros H. apply Hs. by right.
Qed.

Lemma parseTags_join_aux (names : list Js.jsstring) :
  Forall plainTagName names -> names <> [] ->
  forall pre, pre = [] \/ pre = [JsText.space] ->
    map Js.trim
        (JsText.split JsText.comma
           (pre ++ JsText.join [JsText.comma; JsText.space] names))
    = names.
Proof.
  induction 1 as [|name names (Hne & Htrim & Hcomma) Hall IH]; intros Hnil pre Hpre;
    [done|].
  assert (Hpre_comma : ~ In JsText.comma (pre ++ name)).
  { intros Hin. apply in_app_or in Hin as [Hin|Hin]; [|done].
    destruct Hpre as [->| ->]; simpl in Hin; [done|].
    destruct Hin as [Hin|[]]. discriminate. }
  assert (Hpre_trim : Js.trim (pre ++ name) = name).
  { unfold trimmed in Htrim. destruct Hpre as [->| ->]; simpl; [exact Htrim|].
    rewrite <- Htrim at 2. apply trim_space_before. }
  destruct names as [|name' names'].
  - simpl. rewrite split_no_sep by done. simpl. by rewrite Hpre_trim.
  - change (JsText.join [JsText.comma; JsText.space] (name :: name' :: names'))
      with (name ++ JsText.comma
                 :: ([JsText.space]
                       ++ JsText.join [JsText.comma; JsText.space] (name' :: names'))).
    rewrite app_assoc, split_app_sep by done.
    rewrite map_cons, Hpre_trim. f_equal. apply IH; [done|by right].
Qed.

Lemma parseTags_join (names : list Js.jsstring) :
  Forall plainTagName names ->
  Editor.parseTags (JsText.join [JsText.comma; JsText.space] names) = names.
Proof.
  intros Hall. unfold Editor.parseTags.
  destruct names as [|name names]; [done|].
  pose proof (parseTags_join_aux (name :: names) Hall ltac:(done) [] ltac:(by left))
    as Hmap.
  rewrite app_nil_l in Hmap. rewrite Hmap. clear Hmap.
  induction Hall as [|n ns (Hne & _) _ IH]; simpl; [done|].
  apply truthy_not_nil in Hne. by rewrite Hne, IH.
Qed.

(** X15: every tag the editor sends is a plain tag name: not empty, not
    blank, without white space around it and without a comma; an empty or
    blank tags field gives no tag. *)
Theorem X15_parsed_tags_are_plain (tags : Js.jsstring) (tag : Js.jsstring) :
  In tag (Editor.parseTags tags) ->
  plainTagName tag /\ ~ blank tag.
Proof.
  unfold Editor.parseTags. intros Hin.
  apply filter_In in Hin as [Hin Htruthy].
  apply in_map_iff in Hin as (piece & <- & Hpiece).
  pose proof (split_pieces_clean JsText.comma tags) as Hclean.
  rewrite List.Forall_forall in Hclean. specialize (Hclean piece Hpiece).
  apply truthy_not_nil in Htruthy.
  split; [split; [done|split]|].
  - apply trim_idempotent.
  - intros Hc. by apply Hclean, trim_subset.
  - intros Hb. apply trim_blank in Hb. rewrite trim_idempotent in Hb. done.
Qed.

Lemma X15_witness :
  Editor.parseTags (Js.ofString " rocq, ,type theory,,") 
  = [Js.ofString "rocq"; Js.ofString "type theory"]
  /\ plainTagName (Js.ofString "type theory").
Proof.
  split; [reflexivity|].
  apply (X15_parsed_tags_are_plain (Js.ofString " rocq, ,type theory,,")).
  vm_compute. right. left. reflexivity.
Defined.

(** X16: opening a post in the editor and saving it untouched sends back
    the names of its tags, in order, when every name is a plain tag name;
    the published and featured marks go back as they came, title and content
    trimmed. *)
Theorem X16_tags_survive_load_and_save
    (slug : option string) (post : Post.t) (s : Editor.State) :
  Forall plainTagName (map Tag.name (Post.tags post)) ->
  let data := Editor.postData slug (Editor.loadPost post s) in
  Editor.pd_tags data = map Tag.name (Post.tags post)
  /\ Editor.pd_is_published data = Post.is_published post
  /\ Editor.pd_is_featured data = Post.is_featured post
  /\ Editor.pd_title data = Js.trim (Post.title post)
  /\ Editor.pd_content data = Js.trim (Post.content post).
Proof.
  intros Hall data. subst data. simpl. by rewrite parseTags_join.
Qed.

Lemma X16_witness :
  Editor.pd_tags (Editor.postData (Some "hello-world")
                    (Editor.loadPost taggedPost Editor.initialState))
  = [Js.ofString "rocq"; Js.ofString "type theory"].
Proof.
  apply (X16_tags_survive_load_and_save (Some "hello-world") taggedPost
           Editor.initialState).
  repeat constructor; simpl; try discriminate; intuition discriminate.
Defined.

Lemma editor_check_blank (s : Editor.State) :
  negb (Js.truthy (Js.trim (Editor.title s)))
  || negb (Js.truthy (Js.trim (Editor.content s))) = true
  <-> blank (Editor.title s) \/ blank (Editor.content s).
Proof.
  rewrite orb_true_iff, !negb_true_iff, !truthy_trim. done.
Qed.

(** X17: saving in the editor sends at most one request: none, and the
    validation toast instead, exactly when the title or the content is blank;
    otherwise an update of the post being edited, or a creation when no post
    is being edited.  What is sent has a trimmed, non-blank title and
    content, and an update never asks to notify the subscribers. *)
Theorem X17_editor_sends_one_valid_request (slug : option string) (s : Editor.State) :
  let sent := omap Editor.mutationRequest (Editor.handleSubmit slug s) in
  (length sent <= 1)%nat
  /\ (sent = [] <-> blank (Editor.title s) \/ blank (Editor.content s))
  /\ (blank (Editor.title s) \/ blank (Editor.content s) <->
      In (Editor.ShowToast (Form.t "admin.editor.validationError") Form.error_kind)
         (Editor.handleSubmit slug s))
  /\ (forall sl data,
        In (Editor.UpdateMutate sl data) (Editor.handleSubmit slug s) ->
        slug = Some sl /\ sl <> "" /\ data = Editor.postData slug s
        /\ Editor.pd_notify_subscribers data = false)
  /\ (forall data,
        In (Editor.CreateMutate data) (Editor.handleSubmit slug s) ->
        Editor.isEditing slug = false /\ data = Editor.postData slug s
        /\ Editor.pd_notify_subscribers data = Editor.notifySubscribers s)
  /\ (sent <> [] ->
      (~ blank (Editor.pd_title (Editor.postData slug s))
       /\ trimmed (Editor.pd_title (Editor.postData slug s)))
      /\ (~ blank (Editor.pd_content (Editor.postData slug s))
          /\ trimmed (Editor.pd_content (Editor.postData slug s)))).
Proof.
  intros sent. subst sent. unfold Editor.handleSubmit.
  pose proof (editor_check_blank s) as Hcheck.
  destruct (negb (Js.truthy (Js.trim (Editor.title s)))
            || negb (Js.truthy (Js.trim (Editor.content s)))) eqn:E.
  - assert (Hb : blank (Editor.title s) \/ blank (Editor.content s)) by by apply Hcheck.
    simpl. split; [lia|]. split; [done|]. split; [tauto|].
    split; [|split]; try done.
    + intros sl data [H|[H|[]]]; discriminate.
    + intros data [H|[H|[]]]; discriminate.
  - assert (Hf : ~ (blank (Editor.title s) \/ blank (Editor.content s))).
    { intros Hb. apply Hcheck in Hb. congruence. }
    assert (Hfields : (~ blank (Editor.pd_title (Editor.postData slug s))
                       /\ trimmed (Editor.pd_title (Editor.postData slug s)))
                      /\ (~ blank (Editor.pd_content (Editor.postData slug s))
                          /\ trimmed (Editor.pd_content (Editor.postData slug s)))).
    { simpl. unfold trimmed. rewrite !trim_idempotent.
      repeat split; try done; apply trim_keeps_filled; tauto. }
    destruct (Editor.isEditing slug) eqn:Hedit; simpl.
    + split; [lia|]. split; [split; [done|tauto]|].
      split; [split; [tauto|intros [H|[H|[]]]; discriminate]|].
      split; [|split]; try done.
      * intros sl data [H|[H|[]]]; [discriminate|]. inversion H; subst.
        destruct slug as [sl0|]; [|done]. simpl in *.
        rewrite Hedit. repeat split; try done.
        intros ->. by simpl in Hedit.
      * intros data [H|[H|[]]]; discriminate.
    + split; [lia|]. split; [split; [done|tauto]|].
      split; [split; [tauto|intros [H|[H|[]]]; discriminate]|].
      split; [|split]; try done.
      * intros sl data [H|[H|[]]]; discriminate.
      * intros data [H|[H|[]]]; [discriminate|]. inversion H; subst.
        simpl. by rewrite Hedit.
Qed.

Lemma editing_keeps_notify_box (slug : option string) (es : list Editor.Event) :
  forall s s', Editor.isEditing slug = true ->
               Editor.run slug s es = Some s' ->
               Editor.notifySubscribers s' = Editor.notifySubscribers s.
Proof.
  induction es as [|e es IH]; intros s s' Hedit Hrun; simpl in Hrun.
  - by inversion Hrun; subst.
  - destruct (Editor.step slug s e) as [s1|] eqn:Hstep; simpl in Hrun; [|done].
    rewrite (IH s1 s' Hedit Hrun).
    destruct e; simpl in Hstep;
      try (by inversion Hstep; subst).
    + destruct (Editor.showPreview s); [done|]. by inversion Hstep; subst.
    + by rewrite Hedit in Hstep.
Qed.

(** X18: the notify box can be changed only for a new post that is marked
    published at that moment, and while a post is edited it never changes;
    but unmarking "published" afterwards leaves the box ticked, so a new
    post can be sent as a draft together with the request to notify. *)
Theorem X18_notify_box :
  (forall slug s b s',
      Editor.step slug s (Editor.SetNotifySubscribers b) = Some s' ->
      Editor.isEditing slug = false /\ Editor.isPublished s = true
      /\ Editor.notifySubscribers s' = b)
  /\ (forall slug es s s',
        Editor.isEditing slug = true ->
        Editor.run slug s es = Some s' ->
        Editor.notifySubscribers s' = Editor.notifySubscribers s)
  /\ (exists s',
        Editor.run None Editor.initialState notifyThenUnpublish = Some s'
        /\ Editor.pd_is_published (Editor.postData None s') = false
        /\ Editor.pd_notify_subscribers (Editor.postData None s') = true).
Proof.
  split; [|split].
  - intros slug s b s' Hstep. simpl in Hstep.
    destruct (Editor.isEditing slug); [done|].
    destruct (Editor.isPublished s); [|done]. simpl in Hstep.
    by inversion Hstep; subst.
  - intros slug es s s'. apply editing_keeps_notify_box.
  - eexists. split; [reflexivity|]. by split.
Qed.

(** ** The subscribe dialog *)

(** X19: the subscribe dialog never sends a blank address; the address it
    sends is the typed one trimmed; after a success the field is empty, so
    submitting again sends nothing; closing resets the dialog. *)
Theorem X19_subscribe_sends_trimmed_address (s : Subscribe.State) :
  (Subscribe.handleSubmit s = None <-> blank (Subscribe.email s))
  /\ (forall address, Subscribe.handleSubmit s = Some address ->
                      address = Js.trim (Subscribe.email s)
                      /\ ~ blank address /\ trimmed address)
  /\ Subscribe.handleSubmit (Subscribe.onSuccess s) = None
  /\ Subscribe.success (Subscribe.onSuccess s) = true
  /\ Subscribe.handleClose (Subscribe.onSuccess s) = Subscribe.initialState.
Proof.
  unfold Subscribe.handleSubmit.
  destruct (Js.truthy (Js.trim (Subscribe.email s))) eqn:E; simpl.
  - assert (Hf : ~ blank (Subscribe.email s)).
    { intros Hb. apply truthy_trim in Hb. congruence. }
    split; [split; [done|by intros Hb]|]. split; [|done].
    intros address Haddr. inversion Haddr; subst address.
    split; [done|]. split; [by apply trim_keeps_filled|apply trim_idempotent].
  - apply truthy_trim in E. split; [done|]. split; [|done].
    by intros address Haddr.
Qed.

(** ** Choosing posts for a newsletter *)

Lemma filter_out_spec (postId : Z) (l : list Z) (x : Z) :
  In x (List.filter (fun id => negb (id =? postId)) l) <-> In x l /\ x <> postId.
Proof.
  rewrite filter_In, negb_true_iff, Z.eqb_neq. done.
Qed.

Lemma includes_In (postId : Z) (l : list Z) :
  Newsletter.includes postId l = true <-> In postId l.
Proof.
  unfold Newsletter.includes. rewrite bool_decide_eq_true. apply list_elem_of_In.
Qed.

Lemma onChange_NoDup (postId : Z) (s : Newsletter.State) :
  NoDup (Newsletter.selectedPosts s) ->
  NoDup (Newsletter.selectedPosts (Newsletter.onChange postId s)).
Proof.
  intros Hnd. unfold Newsletter.onChange. simpl.
  destruct (Newsletter.includes postId (Newsletter.selectedPosts s)) eqn:Hi.
  - by apply NoDup_ListNoDup, List.NoDup_filter, NoDup_ListNoDup.
  - apply NoDup_app. split; [done|]. split; [|apply NoDup_singleton].
    intros x Hx Hx'. apply list_elem_of_singleton in Hx'. subst x.
    apply list_elem_of_In, includes_In in Hx. congruence.
Qed.

Lemma newsletter_step_good (rows : list Z) (s s' : Newsletter.State)
    (e : Newsletter.Event) :
  NoDup (Newsletter.selectedPosts s) ->
  Forall goodPayload (Newsletter.sent s) ->
  Newsletter.step rows s e = Some s' ->
  NoDup (Newsletter.selectedPosts s') /\ Forall goodPayload (Newsletter.sent s').
Proof.
  intros Hnd Hsent Hstep. destruct e as [row|v|v| | |]; simpl in Hstep.
  - destruct (rows !! row) as [postId|]; simpl in Hstep; [|done].
    inversion Hstep; subst. split; [by apply onChange_NoDup|done].
  - by inversion Hstep; subst.
  - by inversion Hstep; subst.
  - destruct (Newsletter.sendDisabled s) eqn:Hd; [done|].
    inversion Hstep; subst; clear Hstep. simpl. split; [done|].
    apply Forall_app. split; [done|]. apply List.Forall_cons; [|apply List.Forall_nil].
    unfold Newsletter.sendDisabled in Hd.
    apply orb_false_iff in Hd as [Hd _]. apply orb_false_iff in Hd as [Hlen Hsubj].
    apply Nat.eqb_neq in Hlen. apply negb_false_iff in Hsubj.
    unfold goodPayload, Newsletter.payload. simpl.
    split; [by destruct (Newsletter.selectedPosts s)|]. split; [done|]. split.
    + intros Hb. apply truthy_trim in Hb. congruence.
    + unfold Js.orUndefined.
      destruct (Newsletter.newsletterMessage s); simpl; congruence.
  - destruct (Newsletter.isPending s); [|done]. inversion Hstep; subst. simpl.
    split; [apply NoDup_nil_2|done].
  - destruct (Newsletter.isPending s); [|done]. by inversion Hstep; subst.
Qed.

(** X20: through any session on the newsletter form no post is selected
    twice; every request sent names at least one post, none twice, has a
    subject that is not blank and a message that is left out rather than
    empty; and while a request is pending no second one can be sent. *)
Theorem X20_newsletter_requests_are_well_formed
    (es : list (list Z * Newsletter.Event)) (s : Newsletter.State) :
  Newsletter.run Newsletter.initialState es = Some s ->
  NoDup (Newsletter.selectedPosts s)
  /\ Forall goodPayload (Newsletter.sent s)
  /\ (Newsletter.isPending s = true ->
      forall rows, Newsletter.step rows s Newsletter.Send = None).
Proof.
  intros Hrun.
  assert (Hgen : forall es s0 s1,
             Newsletter.run s0 es = Some s1 ->
             NoDup (Newsletter.selectedPosts s0) ->
             Forall goodPayload (Newsletter.sent s0) ->
             NoDup (Newsletter.selectedPosts s1)
             /\ Forall goodPayload (Newsletter.sent s1)).
  { clear. induction es as [|[rows e] es IH]; intros s0 s1 Hrun Hnd Hsent;
      simpl in Hrun.
    - by inversion Hrun; subst.
    - destruct (Newsletter.step rows s0 e) as [s'|] eqn:Hstep; simpl in Hrun; [|done].
      destruct (newsletter_step_good rows s0 s' e Hnd Hsent Hstep) as [H1 H2].
      by apply (IH s' s1). }
  destruct (Hgen es _ _ Hrun) as [H1 H2]; [apply NoDup_nil_2|constructor|].
  split; [done|]. split; [done|].
  intros Hp rows. simpl. unfold Newsletter.sendDisabled.
  by rewrite Hp, orb_true_r.
Qed.

Lemma X20_witness :
  Newsletter.run Newsletter.initialState newsletterSession = Some newsletterSent
  /\ Forall goodPayload (Newsletter.sent newsletterSent).
Proof.
  assert (Hrun : Newsletter.run Newsletter.initialState newsletterSession
                 = Some newsletterSent) by reflexivity.
  split; [exact Hrun|].
  exact (proj1 (proj2 (X20_newsletter_requests_are_well_formed
                         newsletterSession newsletterSent Hrun))).
Defined.

(** X21: a change of a post's check box flips the selection of that post
    and of no other; two changes in a row give back the same selected posts,
    and the very same list when the post was not selected before. *)
Theorem X21_check_box_flips_one_post (postId : Z) (s : Newsletter.State) :
  Newsletter.includes postId (Newsletter.selectedPosts (Newsletter.onChange postId s))
  = negb (Newsletter.includes postId (Newsletter.selectedPosts s))
  /\ (forall other, other <> postId ->
        Newsletter.includes other
          (Newsletter.selectedPosts (Newsletter.onChange postId s))
        = Newsletter.includes other (Newsletter.selectedPosts s))
  /\ (forall x,
        In x (Newsletter.selectedPosts
                (Newsletter.onChange postId (Newsletter.onChange postId s)))
        <-> In x (Newsletter.selectedPosts s))
  /\ (~ In postId (Newsletter.selectedPosts s) ->
      Newsletter.onChange postId (Newsletter.onChange postId s) = s).
Proof.
  assert (Hflip : forall st,
             Newsletter.includes postId
               (Newsletter.selectedPosts (Newsletter.onChange postId st))
             = negb (Newsletter.includes postId (Newsletter.selectedPosts st))).
  { intros st. unfold Newsletter.onChange. simpl.
    destruct (Newsletter.includes postId (Newsletter.selectedPosts st)) eqn:Hi; simpl.
    - apply not_true_iff_false. rewrite includes_In, filter_out_spec. tauto.
    - apply includes_In, in_or_app. right. by left. }
  assert (Hother : forall st x, x <> postId ->
             In x (Newsletter.selectedPosts (Newsletter.onChange postId st))
             <-> In x (Newsletter.selectedPosts st)).
  { intros st x Hne. unfold Newsletter.onChange. simpl.
    destruct (Newsletter.includes postId (Newsletter.selectedPosts st)).
    - rewrite filter_out_spec. tauto.
    - rewrite in_app_iff. simpl. intuition congruence. }
  split; [apply Hflip|]. split; [|split].
  - intros other Hne. apply eq_true_iff_eq. rewrite !includes_In. by apply Hother.
  - intros x. destruct (decide (x = postId)) as [->|Hne].
    + rewrite <- !includes_In, !Hflip, negb_involutive. done.
    + by rewrite !Hother.
  - intros Hnot. destruct s as [sel subj msg pend se]. unfold Newsletter.onChange.
    simpl in *.
    assert (H1 : Newsletter.includes postId sel = false).
    { apply not_true_iff_false. by rewrite includes_In. }
    rewrite H1.
    assert (H2 : Newsletter.includes postId (sel ++ [postId]) = true).
    { apply includes_In, in_or_app. right. by left. }
    rewrite H2. f_equal.
    rewrite List.filter_app. simpl. rewrite Z.eqb_refl. simpl. rewrite app_nil_r.
    clear H1 H2. induction sel as [|x sel IH]; simpl; [done|].
    destruct (x =? postId) eqn:E; simpl.
    + apply Z.eqb_eq in E. subst. exfalso. apply Hnot. by left.
    + f_equal. apply IH. intros H. apply Hnot. by right.
Qed.

(** ** Listing posts *)

(** X22: a posts query never repeats a parameter and always starts with
    the page and the page size; it asks for drafts only when told to, and
    then with the value [true]; a tag is passed only when it is not empty and
    the featured mark whenever it is given.  The posts table of the admin
    page asks for drafts; the public list and the list of posts to choose for
    a newsletter do not. *)
Theorem X22_posts_query_parameters
    (page perPage : Z) (tag : option string) (featured : option bool)
    (includeDrafts : bool) :
  let q := Api.query (Posts.getPosts page perPage tag featured includeDrafts) in
  List.NoDup (map fst q)
  /\ take 2 q = [("page", Api.numberToString page);
                 ("per_page", Api.numberToString perPage)]
  /\ (In "include_drafts" (map fst q) <-> includeDrafts = true)
  /\ (forall v, In ("include_drafts", v) q -> v = "true")
  /\ (In "tag" (map fst q) <-> exists tg, tag = Some tg /\ tg <> "")
  /\ (In "featured" (map fst q) <-> featured <> None)
  /\ In "include_drafts" (map fst (Api.query (Posts.adminPosts page)))
  /\ ~ In "include_drafts" (map fst (Api.query (Posts.newsletterPosts page)))
  /\ ~ In "include_drafts" (map fst (Api.query (Posts.publicPosts page))).
Proof.
  intros q. subst q. unfold Posts.getPosts.
  destruct tag as [tg|]; [destruct (tg =? "")%string eqn:Etg|];
    destruct featured as [[]|]; destruct includeDrafts; simpl;
    (split; [repeat constructor; simpl; intuition discriminate|]);
    (split; [reflexivity|]);
    (split; [intuition discriminate|]);
    (split; [intros v Hv; repeat (destruct Hv as [Hv|Hv]; try discriminate);
             try done; by inversion Hv|]);
    (split; [|split; [intuition discriminate|intuition discriminate]]);
    try (apply String.eqb_eq in Etg; subst tg);
    try (apply String.eqb_neq in Etg);
    (split; [intros Hin; repeat (destruct Hin as [Hin|Hin]; try discriminate);
             try done; by exists tg
            |intros (tg' & Htg' & Hne'); first [discriminate
                                               | inversion Htg'; subst; tauto ]]).
Qed.

(** ** Uploading an image *)

Lemma ends_clean_not_blank (s : Js.jsstring) (c : N) :
  Js.isWhiteSpace c = false -> ~ blank (s ++ [c]).
Proof.
  intros Hc Hb. unfold blank in Hb. apply Forall_app in Hb as [_ Hb].
  inversion Hb; congruence.
Qed.

(** X23: a finished upload only adds to the content: what was written is
    still there, in front, followed by two line feeds and the image markdown
    with the address of the uploaded file; the other fields stay, and the
    content is not blank afterwards, so saving can then only be held back by
    a blank title. *)
Theorem X23_upload_appends_the_image
    (apiBase filename : Js.jsstring) (slug : option string) (s : Editor.State) :
  let s' := Upload.onSuccess apiBase filename s in
  Editor.content s'
  = Editor.content s ++ [10; 10]%N ++ Js.ofString "![Image](" ++ apiBase
    ++ Js.ofString "/api/images/" ++ filename ++ Js.ofString ")"
  /\ Editor.title s' = Editor.title s
  /\ Editor.tags s' = Editor.tags s
  /\ ~ blank (Editor.content s')
  /\ (omap Editor.mutationRequest (Editor.handleSubmit slug s') = []
      <-> blank (Editor.title s)).
Proof.
  intros s'. subst s'.
  assert (Heq : Editor.content (Upload.onSuccess apiBase filename s)
                = Editor.content s ++ [10; 10]%N ++ Js.ofString "![Image](" ++ apiBase
                  ++ Js.ofString "/api/images/" ++ filename ++ Js.ofString ")").
  { unfold Upload.onSuccess, Upload.getImageUrl. cbn [Editor.content].
    by rewrite <- !app_assoc. }
  assert (Hcontent : ~ blank (Editor.content (Upload.onSuccess apiBase filename s))).
  { rewrite Heq. change (Js.ofString ")") with [41%N].
    rewrite !app_assoc. by apply ends_clean_not_blank. }
  split; [exact Heq|].
  split; [done|]. split; [done|]. split; [exact Hcontent|].
  unfold Editor.handleSubmit.
  pose proof (editor_check_blank (Upload.onSuccess apiBase filename s)) as Hcheck.
  destruct (negb (Js.truthy (Js.trim (Editor.title (Upload.onSuccess apiBase filename s))))
            || negb (Js.truthy
                       (Js.trim (Editor.content (Upload.onSuccess apiBase filename s)))))
    eqn:E.
  - simpl. split; [|done]. intros _.
    destruct (proj1 Hcheck eq_refl) as [Hb|Hb]; [exact Hb|by apply Hcontent in Hb].
  - assert (Hnb : ~ blank (Editor.title s)).
    { intros Hb. assert (Hft : false = true); [|done]. apply Hcheck. by left. }
    destruct (Editor.isEditing slug); simpl; split; try done; by intros Hb.
Qed.

(** ** Requests about one comment *)

Lemma string_length_append (a b : string) :
  String.length (a ++ b) = (String.length a + String.length b)%nat.
Proof. induction a as [|c a IH]; simpl; [done|]. by rewrite IH. Qed.

Lemma string_app_inv_tail (a b s : string) : (a ++ s = b ++ s)%string -> a = b.
Proof.
  revert b. induction a as [|c a IH]; intros [|c' b] H; simpl in H.
  - done.
  - apply (f_equal String.length) in H. simpl in H.
    rewrite !string_length_append in H. simpl in H. lia.
  - apply (f_equal String.length) in H. simpl in H.
    rewrite !string_length_append in H. simpl in H. lia.
  - inversion H; subst. f_equal. by apply IH.
Qed.

Lemma list_ascii_of_append (a b : string) :
  list_ascii_of_string (a ++ b) = list_ascii_of_string a ++ list_ascii_of_string b.
Proof. induction a as [|c a IH]; simpl; [done|]. by rewrite IH. Qed.

Lemma numberToString_inj (i j : Z) :
  Api.numberToString i = Api.numberToString j -> i = j.
Proof.
  unfold Api.numberToString. intros H.
  assert (Hnz : forall z, Z.to_int z <> Decimal.Pos Decimal.Nil
                          /\ Z.to_int z <> Decimal.Neg Decimal.Nil).
  { intros [|p|p]; simpl; split; try discriminate;
      intros Hp; inversion Hp as [Hu];
      by apply DecimalPos.Unsigned.to_uint_nonnil in Hu. }
  apply (f_equal NilZero.int_of_string) in H.
  destruct (Hnz i) as [Hi1 Hi2]. destruct (Hnz j) as [Hj1 Hj2].
  rewrite !NilZero.isi in H by done.
  inversion H as [Hij]. by apply DecimalZ.to_int_inj.
Qed.

(** X24: the approve, reject and delete requests name their comment:
    requests of the same kind for different comments differ, and a request
    of one kind is never a request of another kind, whatever the
    comments. *)
Theorem X24_comment_requests_name_their_comment (i j : Z) :
  (Api.approveComment i = Api.approveComment j <-> i = j)
  /\ (Api.rejectComment i = Api.rejectComment j <-> i = j)
  /\ (Api.deleteComment i = Api.deleteComment j <-> i = j)
  /\ Api.approveComment i <> Api.rejectComment j
  /\ Api.approveComment i <> Api.deleteComment j
  /\ Api.rejectComment i <> Api.deleteComment j.
Proof.
  unfold Api.approveComment, Api.rejectComment, Api.deleteComment.
  repeat split; try (by intros ->); try discriminate.
  - intros H. inversion H as [Hp].
    apply (string_app_inv_tail (Api.numberToString i) (Api.numberToString j)) in Hp.
    by apply numberToString_inj.
  - intros H. inversion H as [Hp].
    apply (string_app_inv_tail (Api.numberToString i) (Api.numberToString j)) in Hp.
    by apply numberToString_inj.
  - intros H. inversion H as [Hp]. by apply numberToString_inj.
  - intros H. inversion H as [Hp].
    change ((Api.numberToString i ++ "/approve")%string
            = (Api.numberToString j ++ "/reject")%string) in Hp.
    apply (f_equal list_ascii_of_string) in Hp.
    rewrite !list_ascii_of_append in Hp.
    apply (f_equal (@rev ascii)) in Hp. rewrite !rev_app_distr in Hp.
    simpl in Hp. discriminate.
Qed.
